(** * Template matching script [TM_3.0/cosmos_3.0.py]

    A shallow embedding of the script: load an image and a template, compute
    the normalised-correlation score map, keep the coordinates whose score
    reaches the threshold, draw one rectangle per kept coordinate, resize and
    write the annotated image.

    The layers, bottom up:
    - [Py]      the Python and NumPy operations the script uses on values
                (comparison of a float array with a scalar, [np.where], the
                reversed slice, [zip], truthiness of a tuple, [np.asarray]);
    - [Cv2]     the OpenCV entry points, as an interface: their code is not
                part of the repository;
    - [Script]  the script itself, statement by statement, in a state and
                exception monad over a store of array objects;
    - the properties of the score-map scan and of whole runs. *)

From Stdlib Require Import ZArith Floats.SpecFloat.
From stdpp Require Import gmap strings list pretty sorting.

Open Scope Z_scope.

(** ** Arrays *)

(** A two-dimensional array is a list of rows (row [y], then column [x]). *)
Abbreviation grid A := (list (list A)) (only parsing).

(** [uint8] pixels: one intensity, or blue, green and red. *)
Definition gray : Type := Z.
Definition bgr : Type := (Z * Z * Z)%type.

(** [float32] scores, compared as IEEE 754 values: a NaN is neither above nor
    below anything, and the two zeros are equal. *)
Definition score : Type := spec_float.

Inductive ndarray :=
| NdColor (g : grid bgr)
| NdGray (g : grid gray)
| NdScore (g : grid score).

Definition height {A} (g : grid A) : Z := Z.of_nat (length g).
Definition width {A} (g : grid A) : Z :=
  match g with
  | [] => 0
  | row :: _ => Z.of_nat (length row)
  end.

(** [a.shape] of a two-dimensional array: rows first. *)
Definition shape {A} (g : grid A) : list Z := [height g; width g].

(** A rectangular grid of [rows] rows and [cols] columns. *)
Definition has_shape {A} (g : grid A) (rows cols : Z) : Prop :=
  height g = rows ∧ Forall (λ row, Z.of_nat (length row) = cols) g.

(** The entry of row [y] and column [x], for coordinates inside the grid. *)
Definition entry_at {A} (g : grid A) (x y : Z) : option A :=
  if decide (0 ≤ x ∧ 0 ≤ y)
  then row ← g !! Z.to_nat y; row !! Z.to_nat x
  else None.

Module Py.

(** [res >= threshold]: the element-wise comparison, a boolean array. *)
Definition ge_mask (res : grid score) (threshold : score) : grid bool :=
  (λ row : list score, SFleb threshold <$> row) <$> res.

(** The (row, column) indices of the true entries of one row, left to
    right; [x] is the column of the head of [row]. *)
Fixpoint nonzero_row (y x : Z) (row : list bool) : list (Z * Z) :=
  match row with
  | [] => []
  | b :: row' =>
      (if b then [(y, x)] else []) ++ nonzero_row y (x + 1) row'
  end.

(** The same over the rows from row [y] on, top to bottom: the C order in
    which NumPy enumerates the non-zero entries. *)
Fixpoint nonzero_from (y : Z) (m : grid bool) : list (Z * Z) :=
  match m with
  | [] => []
  | row :: m' => nonzero_row y 0 row ++ nonzero_from (y + 1) m'
  end.

(** [np.where(m)] on a two-dimensional array: a tuple with one index array
    per dimension, the row indices and then the column indices. *)
Definition np_where (m : grid bool) : list (list Z) :=
  [(nonzero_from 0 m).*1; (nonzero_from 0 m).*2].

(** Truthiness of a tuple: it is false only for the empty tuple. *)
Definition truthy {A} (t : list A) : bool := negb (length t =? 0)%nat.

(** [t[::-1]] *)
Definition reversed {A} (t : list A) : list A := rev t.

(** [zip] applied to the unpacked tuple [ts]: tuples of the i-th elements,
    as long as every argument has one; no argument, no tuple. *)
Fixpoint zip_star {A} (ts : list (list A)) : list (list A) :=
  match ts with
  | [] => []
  | [t] => (λ a, [a]) <$> t
  | t :: ts' => zip_with cons t (zip_star ts')
  end.

(** [np.asarray(l).shape] for a list of tuples: [(0,)] when the list is
    empty, else the number of tuples and their length. *)
Definition asarray_shape {A} (l : list (list A)) : list Z :=
  match l with
  | [] => [0]
  | t :: _ => [Z.of_nat (length l); Z.of_nat (length t)]
  end.

(** [str(n)] of an integer. *)
Definition str (n : Z) : string := pretty n.

End Py.

(** The coordinates the script keeps for a score map: [zip] over the unpacked
    [loc[::-1]], with [loc = np.where(res >= threshold)]; each is a tuple
    [x, y]. *)
Definition locations (res : grid score) (threshold : score) : list (list Z) :=
  Py.zip_star (Py.reversed (Py.np_where (Py.ge_mask res threshold))).

(** ** The OpenCV interface

    The script calls into OpenCV for decoding, colour conversion, matching,
    drawing and resizing. None of that code belongs to the repository, so the
    entry points are the operations of an interface, on array contents. *)

Inductive method :=
| TM_SQDIFF | TM_SQDIFF_NORMED | TM_CCORR | TM_CCORR_NORMED
| TM_CCOEFF | TM_CCOEFF_NORMED.

(** Reading a file and calling OpenCV are functions here: the files do not
    change during a run, and OpenCV gives equal results on equal arguments. *)
Class Cv2 := {
  (** [cv2.imread(path)]: the decoded colour image, [None] when the file is
      missing or cannot be decoded. *)
  imread : string → option (grid bgr);
  (** [cv2.imread(path, 0)]: the same, decoded as a gray-scale image. *)
  imread_grayscale : string → option (grid gray);
  (** [cv2.cvtColor(src, cv2.COLOR_BGR2GRAY)] on a colour image. *)
  cvtColor_BGR2GRAY : grid bgr → grid gray;
  (** [cv2.matchTemplate(image, templ, method)]: the score map, [None] when
      OpenCV rejects the arguments and raises. *)
  matchTemplate : grid gray → grid gray → method → option (grid score);
  (** [cv2.rectangle(img, pt1, pt2, color, thickness)]: the pixels after the
      outline is drawn. *)
  rectangle : grid bgr → Z * Z → Z * Z → bgr → Z → grid bgr;
  (** [cv2.resize(src, dsize)], [dsize] being (width, height). *)
  resize : grid bgr → Z * Z → grid bgr;
}.

(** ** The state of a run *)

(** Exceptions that end a run. *)
Inductive exn :=
| CvError          (* cv2.error *)
| AttributeError   (* an attribute of None *)
| ValueError       (* unpacking a tuple of the wrong length *)
| IndexError       (* a tuple index out of range *)
| TypeError.       (* an operand of the wrong kind *)

Inductive outcome (A : Type) :=
| Ok (a : A)
| Raise (e : exn).
Arguments Ok {A} a.
Arguments Raise {A} e.

(** Arrays are objects: a variable holds the identity of an array, and the
    store maps identities to contents. Drawing changes the contents in
    place; every other call returns a new object. *)
Record state := State {
  heap : gmap nat ndarray;
  windows : list string;               (* windows created *)
  stdout : list string;                (* one entry per [print] *)
  written : list (string * ndarray);   (* one entry per [cv2.imwrite] *)
}.

Definition set_heap (h : gmap nat ndarray) (s : state) : state :=
  State h (windows s) (stdout s) (written s).

Definition init : state := State ∅ [] [] [].

Definition M (A : Type) : Type := state → outcome A * state.

Definition ret {A} (a : A) : M A := λ s, (Ok a, s).

Definition bind {A B} (m : M A) (f : A → M B) : M B :=
  λ s, match m s with
       | (Ok a, s') => f a s'
       | (Raise e, s') => (Raise e, s')
       end.

Definition raise {A} (e : exn) : M A := λ s, (Raise e, s).

Global Instance M_ret : MRet M := @ret.
Global Instance M_bind : MBind M := λ A B f m, bind m f.

(** A new array object: an identity no array of the store has. *)
Definition push (a : ndarray) (h : gmap nat ndarray) : gmap nat ndarray :=
  <[fresh (dom h) := a]> h.

Definition alloc (a : ndarray) : M nat :=
  λ s, (Ok (fresh (dom (heap s))), set_heap (push a (heap s)) s).

(** The contents of an array. Every identity the script holds is in the
    store, so the second case is there for totality only. *)
Definition load (l : nat) : M ndarray :=
  λ s, match heap s !! l with
       | Some a => (Ok a, s)
       | None => (Raise TypeError, s)
       end.

Definition store (l : nat) (a : ndarray) : M unit :=
  λ s, (Ok (), set_heap (<[l := a]> (heap s)) s).

Definition print (line : string) : M unit :=
  λ s, (Ok (), State (heap s) (windows s) (stdout s ++ [line]) (written s)).

Definition write_file (path : string) (a : ndarray) : M unit :=
  λ s, (Ok (),
        State (heap s) (windows s) (stdout s) (written s ++ [(path, a)])).

Definition new_window (name : string) : M unit :=
  λ s, (Ok (), State (heap s) (windows s ++ [name]) (stdout s) (written s)).

(** [t[i]] on a tuple. *)
Definition index {A} (t : list A) (i : nat) : M A :=
  match t !! i with
  | Some a => ret a
  | None => raise IndexError
  end.

(** [a, b = t] *)
Definition unpack2 {A} (t : list A) : M (A * A) :=
  match t with
  | [a; b] => ret (a, b)
  | _ => raise ValueError
  end.

(** [for x in xs: acc = body(acc, x)] *)
Fixpoint for_each {A B} (body : B → A → M B) (xs : list A) (acc : B)
  : M B :=
  match xs with
  | [] => ret acc
  | x :: xs' => acc' ← body acc x; for_each body xs' acc'
  end.

(** ** The script *)

Record config := Config {
  Data : string;        (* the original photo *)
  template : string;    (* the template *)
  out : string;         (* the output figure *)
  match_method : method;
  threshold : score;
}.

Definition nl : string := String (Ascii.ascii_of_nat 10) EmptyString.

Definition dims_line (w h : Z) : string :=
  nl +:+ "Template dimensions: Width = " +:+ Py.str w
  +:+ ", Height = " +:+ Py.str h.

Definition count_line (n : Z) : string :=
  "Detections found = " +:+ Py.str n +:+ " ".

Definition no_matches_msg : string :=
  "Sorry, there are no matches in this image" +:+ nl
  +:+ ", maybe try a different threshold...".

(** The constants of the script. The threshold 0.30 is the [float32] nearest
    to it, 10066330 * 2^-25: NumPy compares a [float32] array with a Python
    scalar in [float32]. *)
Definition default_config : config :=
  Config "ww2.jpg" "Waldo.png" "Detections.png" TM_CCOEFF_NORMED
    (S754_finite false 10066330 (-25)).

(** A variable that holds an array, or [None]. *)
Definition pyarray : Type := option nat.

(** The variables of the script after the matching. *)
Record env := Env {
  e_img_rgb : pyarray;
  e_img_gray : pyarray;
  e_template : pyarray;
  e_w : Z;
  e_h : Z;
  e_res : pyarray;
}.

(** The variables the rest of the script adds. *)
Record vars := Vars {
  v_env : env;
  v_loc : list (list Z);
  v_detections : list (list Z);
  v_imS : pyarray;
}.

Section Script.
Context `{Cv2}.

Definition cv2_namedWindow (name : string) : M unit := new_window name.

Definition cv2_imread (path : string) : M pyarray :=
  match imread path with
  | Some g => l ← alloc (NdColor g); ret (Some l)
  | None => ret None
  end.

Definition cv2_imread_grayscale (path : string) : M pyarray :=
  match imread_grayscale path with
  | Some g => l ← alloc (NdGray g); ret (Some l)
  | None => ret None
  end.

(** The contents of an array argument; OpenCV raises on [None]. *)
Definition cv2_arg (a : pyarray) : M ndarray :=
  match a with
  | Some l => load l
  | None => raise CvError
  end.

(** OpenCV raises on an array that has no three channels. *)
Definition cv2_cvtColor (src : pyarray) : M pyarray :=
  a ← cv2_arg src;
  match a with
  | NdColor g => l ← alloc (NdGray (cvtColor_BGR2GRAY g)); ret (Some l)
  | _ => raise CvError
  end.

(** [a.shape]; [None] has no such attribute. *)
Definition get_shape (a : pyarray) : M (list Z) :=
  match a with
  | None => raise AttributeError
  | Some l =>
      a ← load l;
      ret match a with
          | NdColor g => shape g ++ [3]
          | NdGray g => shape g
          | NdScore g => shape g
          end
  end.

Definition cv2_matchTemplate (image templ : pyarray) (m : method)
  : M pyarray :=
  a ← cv2_arg image;
  t ← cv2_arg templ;
  match a, t with
  | NdGray g, NdGray gt =>
      match matchTemplate g gt m with
      | Some res => l ← alloc (NdScore res); ret (Some l)
      | None => raise CvError
      end
  | _, _ => raise CvError
  end.

(** [np.where(res >= threshold)], on the array of scores. *)
Definition where_ge (res : pyarray) (thr : score) : M (list (list Z)) :=
  match res with
  | None => raise TypeError
  | Some l =>
      a ← load l;
      match a with
      | NdScore g => ret (Py.np_where (Py.ge_mask g thr))
      | _ => raise TypeError
      end
  end.

(** Drawing changes the array [img] itself. *)
Definition cv2_rectangle (img : pyarray) (pt1 pt2 : Z * Z) (color : bgr)
  (thickness : Z) : M unit :=
  a ← cv2_arg img;
  match a, img with
  | NdColor g, Some l =>
      store l (NdColor (rectangle g pt1 pt2 color thickness))
  | _, _ => raise CvError
  end.

Definition cv2_resize (src : pyarray) (dsize : Z * Z) : M pyarray :=
  a ← cv2_arg src;
  match a with
  | NdColor g => l ← alloc (NdColor (resize g dsize)); ret (Some l)
  | _ => raise CvError
  end.

Definition cv2_imwrite (path : string) (img : pyarray) : M unit :=
  a ← cv2_arg img;
  write_file path a.

(** The body of the loop over the kept coordinates. *)
Definition loop_body (img_rgb : pyarray) (w h : Z)
  (detections : list (list Z)) (pt : list Z) : M (list (list Z)) :=
  x ← index pt 0;
  y ← index pt 1;
  cv2_rectangle img_rgb (x, y) (x + w, y + h) (255, 255, 255) 2;;
  ret (detections ++ [pt]).

(** Sections 1 to 5 of the script: reading, and the matching. *)
Definition load_and_match (c : config) : M env :=
  cv2_namedWindow "Detected";;
  img_rgb ← cv2_imread (Data c);
  img_gray ← cv2_cvtColor img_rgb;
  template ← cv2_imread_grayscale (template c);
  sh ← get_shape template;
  '(w, h) ← unpack2 (Py.reversed sh);
  print (dims_line w h);;
  res ← cv2_matchTemplate img_gray template (match_method c);
  ret (Env img_rgb img_gray template w h res).

(** The threshold and the guard. *)
Definition locate (c : config) (e : env) : M (list (list Z)) :=
  loc ← where_ge (e_res e) (threshold c);
  (if negb (Py.truthy loc) then print no_matches_msg else ret ());;
  ret loc.

(** The loop: a rectangle and a detection per kept coordinate. *)
Definition annotate (e : env) (loc : list (list Z)) : M (list (list Z)) :=
  for_each (loop_body (e_img_rgb e) (e_w e) (e_h e))
    (Py.zip_star (Py.reversed loc)) [].

(** The count and the output. *)
Definition report_and_save (c : config) (e : env)
  (detections : list (list Z)) : M pyarray :=
  n ← index (Py.asarray_shape detections) 0;
  print (count_line n);;
  imS ← cv2_resize (e_img_rgb e) (1000, 960);
  cv2_imwrite (out c) imS;;
  ret imS.

Definition script (c : config) : M vars :=
  e ← load_and_match c;
  loc ← locate c e;
  detections ← annotate e loc;
  imS ← report_and_save c e detections;
  ret (Vars e loc detections imS).

(** The image after the loop has drawn at every coordinate of [pts]. *)
Definition draw (w h : Z) (g : grid bgr) (pt : list Z) : grid bgr :=
  match pt with
  | [x; y] => rectangle g (x, y) (x + w, y + h) (255, 255, 255) 2
  | _ => g
  end.

Definition annotated (w h : Z) (g : grid bgr) (pts : list (list Z))
  : grid bgr :=
  foldl (draw w h) g pts.

(** *** The stores of a run

    From a store [h], a run that reads the photo [img] and the template
    [tpl] and matches them to [res] creates four arrays, in this order. *)
Definition heap_rgb (h : gmap nat ndarray) (img : grid bgr) :=
  push (NdColor img) h.
Definition heap_gray h img :=
  push (NdGray (cvtColor_BGR2GRAY img)) (heap_rgb h img).
Definition heap_template h img (tpl : grid gray) :=
  push (NdGray tpl) (heap_gray h img).
Definition heap_res h img tpl (res : grid score) :=
  push (NdScore res) (heap_template h img tpl).

Definition l_rgb (h : gmap nat ndarray) : nat := fresh (dom h).
Definition l_gray h img : nat := fresh (dom (heap_rgb h img)).
Definition l_template h img : nat := fresh (dom (heap_gray h img)).
Definition l_res h img tpl : nat := fresh (dom (heap_template h img tpl)).

Definition matched_env h img (tpl : grid gray) : env :=
  Env (Some (l_rgb h)) (Some (l_gray h img)) (Some (l_template h img))
    (width tpl) (height tpl) (Some (l_res h img tpl)).

Definition matched_state (s : state) img tpl res : state :=
  State (heap_res (heap s) img tpl res) (windows s ++ ["Detected"])
    (stdout s ++ [dims_line (width tpl) (height tpl)]) (written s).

(** The store once the loop has drawn at [pts]. *)
Definition heap_annotated h img tpl res (pts : list (list Z)) :=
  <[l_rgb h := NdColor (annotated (width tpl) (height tpl) img pts)]>
    (heap_res h img tpl res).

(** What the run writes: the annotated photo, resized. *)
Definition output_image img (tpl : grid gray) (pts : list (list Z))
  : grid bgr :=
  resize (annotated (width tpl) (height tpl) img pts) (1000, 960).

Definition final_vars (c : config) h img tpl res : vars :=
  let pts := locations res (threshold c) in
  Vars (matched_env h img tpl)
    (Py.np_where (Py.ge_mask res (threshold c))) pts
    (Some (fresh (dom (heap_annotated h img tpl res pts)))).

Definition final_state (c : config) (s : state) img tpl res : state :=
  let pts := locations res (threshold c) in
  State
    (push (NdColor (output_image img tpl pts))
       (heap_annotated (heap s) img tpl res pts))
    (windows s ++ ["Detected"])
    (stdout s ++ [dims_line (width tpl) (height tpl)]
     ++ [count_line (Z.of_nat (length pts))])
    (written s ++ [(out c, NdColor (output_image img tpl pts))]).

(** The two files are read as [img] and [tpl], and OpenCV matches the
    gray-scale photo and the template to the score map [res]. *)
Definition reads (c : config) (img : grid bgr) (tpl : grid gray)
  (res : grid score) : Prop :=
  imread (Data c) = Some img
  ∧ imread_grayscale (template c) = Some tpl
  ∧ matchTemplate (cvtColor_BGR2GRAY img) tpl (match_method c) = Some res.

End Script.

(** The detections a run ends with, if it ends well. *)
Definition emitted (r : outcome vars) : option (list (list Z)) :=
  match r with
  | Ok v => Some (v_detections v)
  | Raise _ => None
  end.

(** The tuple [x, y] of a (row, column) index pair. *)
Definition as_xy (p : Z * Z) : list Z := [p.2; p.1].

(** The order of the scan: an earlier row, or the same row and an earlier
    column. Coordinates are tuples [x, y]. *)
Definition scan_lt (p q : list Z) : Prop :=
  match p, q with
  | [x1; y1], [x2; y2] => y1 < y2 ∨ (y1 = y2 ∧ x1 < x2)
  | _, _ => False
  end.

(** The number of entries of the score map that reach the threshold. *)
Definition count_ge (res : grid score) (thr : score) : nat :=
  sum_list
    ((λ row : list score, length (List.filter (SFleb thr) row)) <$> res).

(** ** A small world to run the script in

    An instance of the interface for the examples: one photo, one template,
    and a matcher that scores an offset 1 when the patch there equals the
    template and 0 when it does not. *)
Module Fixture.

Definition one : score := S754_finite false 8388608 (-23).
Definition zero : score := S754_zero false.
Definition half : score := S754_finite false 8388608 (-24).

Definition px (v : Z) : bgr := (v, v, v).

(** A 3 by 4 photo; the template [7 7] occurs twice in the middle row. *)
Definition photo : grid bgr :=
  [ [px 0; px 0; px 0; px 0];
    [px 0; px 7; px 7; px 7];
    [px 0; px 0; px 0; px 0] ].

Definition patch : grid gray := [ [7; 7] ].

(** A template that occurs nowhere in the photo. *)
Definition blank : grid gray := [ [9; 9] ].

Definition window (g : grid gray) (x y w h : nat) : grid gray :=
  map (λ row, take w (drop x row)) (take h (drop y g)).

Definition exact_match (g t : grid gray) (_ : method) : option (grid score) :=
  let '(gh, gw) := (length g, Z.to_nat (width g)) in
  let '(th, tw) := (length t, Z.to_nat (width t)) in
  if decide (th ≤ gh ∧ tw ≤ gw)%nat then
    Some (map (λ y, map (λ x, if decide (window g x y tw th = t)
                              then one else zero)
                      (seq 0 (gw - tw + 1)))
            (seq 0 (gh - th + 1)))
  else None.

(** Drawing marks the two corners it is given, when they are inside. *)
Definition mark (g : grid bgr) (p : Z * Z) (color : bgr) : grid bgr :=
  if decide (0 ≤ p.1 ∧ 0 ≤ p.2)
  then alter (alter (λ _, color) (Z.to_nat p.1)) (Z.to_nat p.2) g
  else g.

Definition corners (g : grid bgr) (pt1 pt2 : Z * Z) (color : bgr) (_ : Z)
  : grid bgr :=
  mark (mark g pt1 color) pt2 color.

(** Nearest-neighbour sampling to [dsize = (width, height)]. *)
Definition sample (g : grid bgr) (dsize : Z * Z) : grid bgr :=
  let '(gh, gw) := (length g, Z.to_nat (width g)) in
  let '(dw, dh) := (Z.to_nat dsize.1, Z.to_nat dsize.2) in
  map (λ y, map (λ x, default (px 0)
                        (row ← g !! (y * gh / dh)%nat;
                         row !! (x * gw / dw)%nat))
              (seq 0 dw))
    (seq 0 dh).

Definition files (path : string) : option (grid bgr) :=
  if decide (path = "ww2.jpg") then Some photo else None.

Definition files_grayscale (path : string) : option (grid gray) :=
  if decide (path = "Waldo.png") then Some patch
  else if decide (path = "blank.png") then Some blank
  else None.

Definition cv2 : Cv2 := {|
  imread := files;
  imread_grayscale := files_grayscale;
  cvtColor_BGR2GRAY := map (map (λ p : bgr, p.1.1));
  matchTemplate := exact_match;
  rectangle := corners;
  resize := sample;
|}.

(** The score maps of the photo for the two templates. *)
Definition scores : grid score :=
  [ [zero; zero; zero]; [zero; one; one]; [zero; zero; zero] ].

Definition no_scores : grid score :=
  [ [zero; zero; zero]; [zero; zero; zero]; [zero; zero; zero] ].

Definition no_match_config : config :=
  Config "ww2.jpg" "blank.png" "Detections.png" TM_CCOEFF_NORMED half.

End Fixture.

(** ** A world with a template wider than the photo

    The photo of the small world, with a template of five columns against its
    four: the matcher of the small world rejects the pair. *)
Module Oversize.

Definition wide : grid gray := [ [7; 7; 7; 7; 7] ].

Definition files_grayscale (path : string) : option (grid gray) :=
  if decide (path = "Waldo.png") then Some wide else None.

Definition cv2 : Cv2 := {|
  imread := Fixture.files;
  imread_grayscale := files_grayscale;
  cvtColor_BGR2GRAY := map (map (λ p : bgr, p.1.1));
  matchTemplate := Fixture.exact_match;
  rectangle := Fixture.corners;
  resize := Fixture.sample;
|}.

End Oversize.

(** ** A world whose matcher exchanges the photo and the template

    OpenCV exchanges the image and the template when the template is the
    larger of the two in both directions, and raises only when each is the
    larger in one. The matcher of this world does the same, on a photo of one
    pixel and a template of two. *)
Module Swapping.

Definition photo : grid bgr := [ [Fixture.px 7] ].

Definition wide : grid gray := [ [7; 7] ].

(** The score map when the one-pixel photo slides over the template. *)
Definition scores : grid score := [ [Fixture.one; Fixture.one] ].

Definition files (path : string) : option (grid bgr) :=
  if decide (path = "ww2.jpg") then Some photo else None.

Definition files_grayscale (path : string) : option (grid gray) :=
  if decide (path = "Waldo.png") then Some wide else None.

Definition exchanging_match (g t : grid gray) (m : method)
  : option (grid score) :=
  match Fixture.exact_match g t m with
  | Some res => Some res
  | None => Fixture.exact_match t g m
  end.

Definition cv2 : Cv2 := {|
  imread := files;
  imread_grayscale := files_grayscale;
  cvtColor_BGR2GRAY := map (map (λ p : bgr, p.1.1));
  matchTemplate := exchanging_match;
  rectangle := Fixture.corners;
  resize := Fixture.sample;
|}.

End Swapping.

(** ** A world whose score map has an entry that is not a number *)
Module Flat.

Definition scores : grid score := [ [S754_nan; Fixture.one] ].

Definition cv2 : Cv2 := {|
  imread := Fixture.files;
  imread_grayscale := Fixture.files_grayscale;
  cvtColor_BGR2GRAY := map (map (λ p : bgr, p.1.1));
  matchTemplate := λ _ _ _, Some scores;
  rectangle := Fixture.corners;
  resize := Fixture.sample;
|}.

End Flat.

(** * Properties *)

(** ** The comparison of scores *)

Lemma SFleb_trans (a b c : score) :
  SFleb a b = true → SFleb b c = true → SFleb a c = true.
Proof.
  unfold SFleb, SFcompare.
  destruct a as [[]|[]| |[] ma ea], b as [[]|[]| |[] mb eb],
    c as [[]|[]| |[] mc ec]; try done;
    change (Pos.compare_cont Eq) with Pos.compare;
    destruct (Z.compare_spec ea eb), (Z.compare_spec eb ec),
      (Z.compare_spec ea ec); try done; try lia;
    destruct (Pos.compare_spec ma mb), (Pos.compare_spec mb mc),
      (Pos.compare_spec ma mc); simpl; try done; try lia.
Qed.

(** ** The scan of the boolean array *)

Section Scan.

Lemma StronglySorted_weaken {A} (R1 R2 : relation A) (l : list A) :
  (∀ a b, R1 a b → R2 a b) → StronglySorted R1 l → StronglySorted R2 l.
Proof.
  intros HR Hl. induction Hl as [|a l _ IH Ha]; constructor; [done|].
  eapply Forall_impl; [exact Ha | auto].
Qed.

Lemma elem_of_nonzero_row y x0 row r c :
  (r, c) ∈ Py.nonzero_row y x0 row ↔
  r = y ∧ ∃ j : nat, c = x0 + Z.of_nat j ∧ row !! j = Some true.
Proof.
  revert x0. induction row as [|b row IH]; intros x0; simpl.
  - split; [by intros ?%elem_of_nil | by intros (_ & j & _ & ?)].
  - rewrite elem_of_app, IH. split.
    + intros [Hb | (-> & j & -> & Hj)].
      * destruct b; [|by apply elem_of_nil in Hb].
        apply list_elem_of_singleton in Hb as [= -> ->].
        split; [done|]. exists 0%nat. split; [lia | done].
      * split; [done|]. exists (S j). split; [lia | done].
    + intros (-> & [|j] & -> & Hj); simpl in Hj.
      * injection Hj as ->. left. rewrite Z.add_0_r. apply list_elem_of_here.
      * right. split; [done|]. exists j. split; [lia | done].
Qed.

Lemma elem_of_nonzero_from y0 m r c :
  (r, c) ∈ Py.nonzero_from y0 m ↔
  ∃ (i j : nat) row,
    r = y0 + Z.of_nat i ∧ c = Z.of_nat j ∧
    m !! i = Some row ∧ row !! j = Some true.
Proof.
  revert y0. induction m as [|row m IH]; intros y0; simpl.
  - split; [by intros ?%elem_of_nil | by intros (i & j & ? & _ & _ & ? & _)].
  - rewrite elem_of_app, IH, elem_of_nonzero_row. split.
    + intros [(-> & j & -> & Hj) | (i & j & row' & -> & -> & Hi & Hj)].
      * exists 0%nat, j, row. split_and!; [lia | lia | done | done].
      * exists (S i), j, row'. split_and!; [lia | done | done | done].
    + intros ([|i] & j & row' & -> & -> & Hi & Hj); simpl in Hi.
      * injection Hi as <-. left. split; [lia|]. exists j. split; [lia | done].
      * right. exists i, j, row'. split_and!; [lia | done | done | done].
Qed.

(** Within a row the columns increase. *)
Lemma nonzero_row_sorted y x0 row :
  StronglySorted (λ p q : Z * Z, p.1 = q.1 ∧ p.2 < q.2)
    (Py.nonzero_row y x0 row).
Proof.
  revert x0. induction row as [|b row IH]; intros x0; simpl.
  - constructor.
  - destruct b; simpl; [|apply IH].
    constructor; [apply IH|].
    apply Forall_forall. intros [r c] (-> & j & -> & _)%elem_of_nonzero_row.
    simpl. lia.
Qed.

(** The rows come top to bottom, each left to right. *)
Lemma nonzero_from_sorted y0 m :
  StronglySorted (λ p q : Z * Z, p.1 < q.1 ∨ (p.1 = q.1 ∧ p.2 < q.2))
    (Py.nonzero_from y0 m).
Proof.
  revert y0. induction m as [|row m IH]; intros y0; simpl.
  - constructor.
  - apply StronglySorted_app_2; [| | apply IH].
    + intros [r1 c1] [r2 c2] (-> & _)%elem_of_nonzero_row
        (i & j & ? & -> & _)%elem_of_nonzero_from.
      simpl. lia.
    + eapply StronglySorted_weaken; [|apply nonzero_row_sorted].
      simpl. tauto.
Qed.

Lemma nonzero_row_length thr y x0 (row : list score) :
  length (Py.nonzero_row y x0 (SFleb thr <$> row))
  = length (List.filter (SFleb thr) row).
Proof.
  revert x0. induction row as [|s row IH]; intros x0; simpl; [done|].
  destruct (SFleb thr s); simpl; by rewrite IH.
Qed.

Lemma nonzero_from_length thr y0 (res : grid score) :
  length (Py.nonzero_from y0 (Py.ge_mask res thr)) = count_ge res thr.
Proof.
  unfold count_ge, Py.ge_mask.
  revert y0. induction res as [|row res IH]; intros y0; simpl; [done|].
  by rewrite length_app, nonzero_row_length, IH.
Qed.

(** The two index arrays, reversed and zipped, are the pairs turned into
    tuples [x, y], in the same order. *)
Lemma zip_star_reversed_where m :
  Py.zip_star (Py.reversed (Py.np_where m)) = as_xy <$> Py.nonzero_from 0 m.
Proof.
  unfold Py.np_where, Py.reversed. simpl.
  induction (Py.nonzero_from 0 m) as [|[r c] nz IH]; [done|].
  simpl. f_equal. exact IH.
Qed.

Lemma locations_eq res thr :
  locations res thr = as_xy <$> Py.nonzero_from 0 (Py.ge_mask res thr).
Proof. apply zip_star_reversed_where. Qed.

Lemma locations_pairs res thr :
  Forall (λ pt, ∃ x y, pt = [x; y]) (locations res thr).
Proof.
  rewrite locations_eq. apply Forall_fmap, Forall_forall.
  intros [r c] _. by exists c, r.
Qed.

Lemma elem_of_locations res thr x y :
  [x; y] ∈ locations res thr ↔
  ∃ s, entry_at res x y = Some s ∧ SFleb thr s = true.
Proof.
  rewrite locations_eq, list_elem_of_fmap. split.
  - intros ([r c] & [= -> ->] & Hin).
    apply elem_of_nonzero_from in Hin as (i & j & row & -> & -> & Hi & Hj).
    unfold Py.ge_mask in Hi. rewrite list_lookup_fmap in Hi.
    apply fmap_Some in Hi as (srow & Hrow & ->).
    rewrite list_lookup_fmap in Hj.
    apply fmap_Some in Hj as (s & Hs & Hj). exists s. split; [|done].
    unfold entry_at. rewrite decide_True by lia.
    rewrite Z.add_0_l, !Nat2Z.id, Hrow. simpl. done.
  - intros (s & Hs & Hle). unfold entry_at in Hs.
    destruct (decide (0 ≤ x ∧ 0 ≤ y)) as [[Hx Hy]|]; [|done].
    destruct (res !! Z.to_nat y) as [srow|] eqn:Hrow; [|done].
    simpl in Hs. exists (y, x). split; [done|].
    apply elem_of_nonzero_from.
    exists (Z.to_nat y), (Z.to_nat x), (SFleb thr <$> srow).
    split_and!; [lia | lia | |].
    + unfold Py.ge_mask. rewrite list_lookup_fmap. apply fmap_Some.
      by exists srow.
    + rewrite list_lookup_fmap. apply fmap_Some. by exists s.
Qed.

Lemma locations_sorted res thr : StronglySorted scan_lt (locations res thr).
Proof.
  rewrite locations_eq.
  eapply StronglySorted_fmap; [|apply nonzero_from_sorted].
  intros [r1 c1] [r2 c2]. simpl. tauto.
Qed.

Lemma locations_length res thr :
  length (locations res thr) = count_ge res thr.
Proof. by rewrite locations_eq, length_fmap, nonzero_from_length. Qed.

(** A higher threshold keeps no more entries of a row. *)
Lemma filter_ge_mono t1 t2 (row : list score) :
  SFleb t1 t2 = true →
  (length (List.filter (SFleb t2) row)
   ≤ length (List.filter (SFleb t1) row))%nat.
Proof.
  intros Ht. induction row as [|s row IH]; simpl; [done|].
  destruct (SFleb t2 s) eqn:H2.
  - rewrite (SFleb_trans t1 t2 s Ht H2). simpl. lia.
  - destruct (SFleb t1 s); simpl; lia.
Qed.

Lemma count_ge_mono res t1 t2 :
  SFleb t1 t2 = true → (count_ge res t2 ≤ count_ge res t1)%nat.
Proof.
  intros Ht. unfold count_ge.
  induction res as [|row res IH]; [done|].
  rewrite !fmap_cons. simpl.
  pose proof (filter_ge_mono t1 t2 row Ht). lia.
Qed.

(** Inside a grid of a known shape the coordinates are bounded. *)
Lemma entry_at_bounds {A} (g : grid A) rows cols x y a :
  has_shape g rows cols → entry_at g x y = Some a →
  0 ≤ x < cols ∧ 0 ≤ y < rows.
Proof.
  intros [Hr Hc] Ha. unfold entry_at in Ha.
  destruct (decide (0 ≤ x ∧ 0 ≤ y)) as [[Hx Hy]|]; [|done].
  destruct (g !! Z.to_nat y) as [row|] eqn:Hrow; [|done].
  simpl in Ha.
  apply lookup_lt_Some in Ha.
  pose proof (lookup_lt_Some _ _ _ Hrow) as Hlt.
  rewrite Forall_forall in Hc.
  specialize (Hc row (list_elem_of_lookup_2 _ _ _ Hrow)).
  unfold height in Hr. lia.
Qed.

End Scan.

(** ** The store *)

Section Store.

Lemma lookup_push_new a (h : gmap nat ndarray) :
  push a h !! fresh (dom h) = Some a.
Proof. apply lookup_insert_eq. Qed.

Lemma fresh_not_allocated (h : gmap nat ndarray) l x :
  h !! l = Some x → fresh (dom h) ≠ l.
Proof.
  intros Hl Heq. subst l. apply (is_fresh (dom h)), elem_of_dom. by exists x.
Qed.

Lemma lookup_push_old a (h : gmap nat ndarray) l x :
  h !! l = Some x → push a h !! l = Some x.
Proof.
  intros Hl. unfold push.
  rewrite lookup_insert_ne; [done | by eapply fresh_not_allocated].
Qed.

Lemma lookup_push_frame a (h : gmap nat ndarray) l :
  is_Some (h !! l) → push a h !! l = h !! l.
Proof. intros [x Hx]. rewrite Hx. by apply lookup_push_old. Qed.

End Store.

Create HintDb store.
#[local] Hint Resolve lookup_push_new lookup_push_old : store.

(** Unfolds the statements of the script down to the store operations. *)
Ltac run :=
  cbv beta iota zeta delta
    [script load_and_match locate annotate report_and_save loop_body
     cv2_namedWindow new_window cv2_imread cv2_imread_grayscale cv2_arg
     cv2_cvtColor get_shape cv2_matchTemplate where_ge cv2_rectangle
     cv2_resize cv2_imwrite write_file print alloc load store index unpack2
     ret raise bind mbind M_bind mret M_ret set_heap
     heap windows stdout written
     e_img_rgb e_img_gray e_template e_w e_h e_res
     Py.reversed rev app shape].

(** ** The runs of the script *)

Section Runs.
Context `{Cv2}.

Implicit Types (c : config) (s : state) (h : gmap nat ndarray).

Lemma lookup_rgb h img tpl res :
  heap_res h img tpl res !! l_rgb h = Some (NdColor img).
Proof.
  unfold heap_res, heap_template, heap_gray, heap_rgb, l_rgb.
  auto with store.
Qed.

Lemma lookup_gray h img tpl res :
  heap_res h img tpl res !! l_gray h img
  = Some (NdGray (cvtColor_BGR2GRAY img)).
Proof. unfold heap_res, heap_template, heap_gray, l_gray. auto with store. Qed.

Lemma lookup_template h img tpl res :
  heap_res h img tpl res !! l_template h img = Some (NdGray tpl).
Proof. unfold heap_res, heap_template, l_template. auto with store. Qed.

Lemma lookup_res h img tpl res :
  heap_res h img tpl res !! l_res h img tpl = Some (NdScore res).
Proof. unfold heap_res, l_res. auto with store. Qed.

(** The photo is a different object from the arrays derived from it. *)
Lemma l_rgb_fresh h img tpl :
  l_gray h img ≠ l_rgb h ∧ l_template h img ≠ l_rgb h
  ∧ l_res h img tpl ≠ l_rgb h.
Proof.
  unfold l_gray, l_template, l_res, heap_template, heap_gray, heap_rgb, l_rgb.
  split_and!; eapply fresh_not_allocated; auto with store.
Qed.

(** Sections 1 to 5, when both files are read and OpenCV returns a score
    map. *)
Lemma load_and_match_run c s img tpl res :
  imread (Data c) = Some img →
  imread_grayscale (template c) = Some tpl →
  matchTemplate (cvtColor_BGR2GRAY img) tpl (match_method c) = Some res →
  load_and_match c s
  = (Ok (matched_env (heap s) img tpl), matched_state s img tpl res).
Proof.
  intros Himg Htpl Hres. destruct s as [h wn so wr].
  run. rewrite Himg. run. rewrite lookup_push_new. run.
  rewrite Htpl. run. rewrite lookup_push_new. run.
  erewrite lookup_push_old by auto with store. run.
  rewrite lookup_push_new. run. rewrite Hres. run. done.
Qed.

(** No photo: the colour conversion raises. *)
Lemma load_and_match_no_photo c s :
  imread (Data c) = None →
  load_and_match c s
  = (Raise CvError,
     State (heap s) (windows s ++ ["Detected"]) (stdout s) (written s)).
Proof. intros Himg. destruct s. run. rewrite Himg. by run. Qed.

(** No template: its shape is asked of [None]. *)
Lemma load_and_match_no_template c s img :
  imread (Data c) = Some img →
  imread_grayscale (template c) = None →
  load_and_match c s
  = (Raise AttributeError,
     State (heap_gray (heap s) img) (windows s ++ ["Detected"]) (stdout s)
       (written s)).
Proof.
  intros Himg Htpl. destruct s. run. rewrite Himg. run.
  rewrite lookup_push_new. run. rewrite Htpl. by run.
Qed.

(** OpenCV rejects the pair: its error ends the run, after the first
    [print]. *)
Lemma load_and_match_rejected c s img tpl :
  imread (Data c) = Some img →
  imread_grayscale (template c) = Some tpl →
  matchTemplate (cvtColor_BGR2GRAY img) tpl (match_method c) = None →
  load_and_match c s
  = (Raise CvError,
     State (heap_template (heap s) img tpl) (windows s ++ ["Detected"])
       (stdout s ++ [dims_line (width tpl) (height tpl)]) (written s)).
Proof.
  intros Himg Htpl Hres. destruct s as [h wn so wr].
  run. rewrite Himg. run. rewrite lookup_push_new. run.
  rewrite Htpl. run. rewrite lookup_push_new. run.
  erewrite lookup_push_old by auto with store. run.
  rewrite lookup_push_new. run. rewrite Hres. by run.
Qed.

(** The tuple that [np.where] returns has one array per dimension, so it
    is never the empty tuple. *)
Lemma np_where_truthy m : Py.truthy (Py.np_where m) = true.
Proof. reflexivity. Qed.

(** The threshold step leaves the state as it is: the guard does not
    fire. *)
Lemma locate_run c e s l res :
  e_res e = Some l → heap s !! l = Some (NdScore res) →
  locate c e s = (Ok (Py.np_where (Py.ge_mask res (threshold c))), s).
Proof.
  intros He Hl. destruct e, s. simpl in *. subst. run. rewrite Hl. by run.
Qed.

(** One pass of the loop at a coordinate [x, y]. *)
Lemma loop_body_run l tw th dets x y g s :
  heap s !! l = Some (NdColor g) →
  loop_body (Some l) tw th dets [x; y] s
  = (Ok (dets ++ [[x; y]]),
     set_heap (<[l := NdColor (draw tw th g [x; y])]> (heap s)) s).
Proof.
  intros Hl. destruct s. simpl in *. unfold loop_body. run. simpl.
  rewrite Hl. by run.
Qed.

(** The loop draws at every coordinate, in order, on the one array. *)
Lemma for_each_loop_body l tw th pts dets g s :
  heap s !! l = Some (NdColor g) →
  Forall (λ pt, ∃ x y, pt = [x; y]) pts →
  for_each (loop_body (Some l) tw th) pts dets s
  = (Ok (dets ++ pts),
     set_heap (<[l := NdColor (annotated tw th g pts)]> (heap s)) s).
Proof.
  intros Hl Hpts. revert dets g s Hl.
  induction Hpts as [|pt pts (x & y & ->) _ IH]; intros dets g s Hl.
  - simpl. destruct s. unfold ret, set_heap. simpl in *.
    by rewrite app_nil_r, insert_id.
  - cbn [for_each]. unfold mbind, M_bind, bind.
    rewrite (loop_body_run _ _ _ _ _ _ g) by done.
    rewrite (IH _ (draw tw th g [x; y])).
    + destruct s. unfold set_heap. simpl.
      by rewrite insert_insert_eq, <- app_assoc.
    + destruct s. simpl. apply lookup_insert_eq.
Qed.

(** The loop changes nothing but the array it draws on, whatever the
    coordinates and however it ends. *)
Lemma for_each_loop_body_frame img tw th pts dets s r s' :
  for_each (loop_body img tw th) pts dets s = (r, s') →
  (∀ l, img ≠ Some l → heap s' !! l = heap s !! l)
  ∧ windows s' = windows s ∧ stdout s' = stdout s
  ∧ written s' = written s.
Proof.
  revert dets s. induction pts as [|pt pts IH]; intros dets s.
  - simpl. by intros [= _ <-].
  - cbn [for_each]. unfold mbind, M_bind, bind.
    destruct (loop_body img tw th dets pt s) as [[dets'|e] s1] eqn:Hbody.
    + intros (Hh & Hw & Ho & Hf)%IH.
      enough ((∀ l, img ≠ Some l → heap s1 !! l = heap s !! l)
              ∧ windows s1 = windows s ∧ stdout s1 = stdout s
              ∧ written s1 = written s) as (Hh1 & Hw1 & Ho1 & Hf1).
      { split_and!; [|congruence..].
        intros l Hne. by rewrite Hh, Hh1. }
      clear IH Hh Hw Ho Hf. revert Hbody. destruct s. run.
      destruct (pt !! 0%nat); [|done]. destruct (pt !! 1%nat); [|done].
      destruct img as [l0|]; [|done].
      destruct (heap0 !! l0) as [[]|]; try done.
      intros [= _ <-]. simpl. split_and!; try done.
      intros l Hne. apply lookup_insert_ne. congruence.
    + intros [= _ <-]. revert Hbody. destruct s. run.
      destruct (pt !! 0%nat); [|by intros [= _ <-]].
      destruct (pt !! 1%nat); [|by intros [= _ <-]].
      destruct img as [l0|]; [|by intros [= _ <-]].
      destruct (heap0 !! l0) as [[]|]; try done; by intros [= _ <-].
Qed.

Lemma asarray_shape_first {A} (dets : list (list A)) :
  Py.asarray_shape dets !! 0%nat = Some (Z.of_nat (length dets)).
Proof. by destruct dets. Qed.

(** The count and the output, from a state where the photo is [g]. *)
Lemma report_and_save_run c e dets l g s :
  e_img_rgb e = Some l → heap s !! l = Some (NdColor g) →
  report_and_save c e dets s
  = (Ok (Some (fresh (dom (heap s)))),
     State (push (NdColor (resize g (1000, 960))) (heap s)) (windows s)
       (stdout s ++ [count_line (Z.of_nat (length dets))])
       (written s ++ [(out c, NdColor (resize g (1000, 960)))])).
Proof.
  intros He Hl. destruct e, s. simpl in *. subst. run.
  rewrite asarray_shape_first. run. rewrite Hl. run.
  rewrite lookup_push_new. by run.
Qed.

(** A whole run, when both files are read and OpenCV returns a score
    map. *)
Lemma script_run c s img tpl res :
  imread (Data c) = Some img →
  imread_grayscale (template c) = Some tpl →
  matchTemplate (cvtColor_BGR2GRAY img) tpl (match_method c) = Some res →
  script c s
  = (Ok (final_vars c (heap s) img tpl res), final_state c s img tpl res).
Proof.
  intros Himg Htpl Hres. unfold script, mbind, M_bind, bind.
  rewrite (load_and_match_run c s img tpl res) by done.
  rewrite (locate_run c _ _ (l_res (heap s) img tpl) res);
    [|done|apply lookup_res].
  unfold annotate. rewrite zip_star_reversed_where, <- locations_eq.
  cbn [matched_env e_img_rgb e_w e_h].
  rewrite (for_each_loop_body _ _ _ _ _ img);
    [|apply lookup_rgb|apply locations_pairs].
  erewrite report_and_save_run; [|done|apply lookup_insert_eq].
  unfold final_vars, final_state, matched_state, heap_annotated,
    output_image, set_heap, mret, M_ret, ret. simpl.
  by rewrite <- app_assoc.
Qed.

(** The other runs end in an exception before any detection. *)
Lemma script_raises c s :
  imread (Data c) = None
  ∨ (∃ img, imread (Data c) = Some img
            ∧ (imread_grayscale (template c) = None
               ∨ ∃ tpl, imread_grayscale (template c) = Some tpl
                        ∧ matchTemplate (cvtColor_BGR2GRAY img) tpl
                            (match_method c) = None)) →
  ∃ e s', script c s = (Raise e, s')
          ∧ windows s' = windows s ++ ["Detected"]
          ∧ written s' = written s
          ∧ (stdout s' = stdout s
             ∨ ∃ tw th, stdout s' = stdout s ++ [dims_line tw th]).
Proof.
  unfold script, mbind, M_bind, bind.
  intros [Himg | (img & Himg & [Htpl | (tpl & Htpl & Hres)])].
  - rewrite load_and_match_no_photo by done. eauto 10.
  - rewrite (load_and_match_no_template c s img) by done. eauto 10.
  - rewrite (load_and_match_rejected c s img tpl) by done.
    do 2 eexists. split_and!; [done..|]. right. eauto.
Qed.

(** A run that ends well has read both files and got a score map. *)
Lemma script_ok_inv c s v s' :
  script c s = (Ok v, s') →
  ∃ img tpl res,
    imread (Data c) = Some img
    ∧ imread_grayscale (template c) = Some tpl
    ∧ matchTemplate (cvtColor_BGR2GRAY img) tpl (match_method c) = Some res
    ∧ v = final_vars c (heap s) img tpl res
    ∧ s' = final_state c s img tpl res.
Proof.
  intros Hrun.
  destruct (imread (Data c)) as [img|] eqn:Himg.
  2:{ destruct (script_raises c s) as (e & s1 & He & _); [by left|].
      congruence. }
  destruct (imread_grayscale (template c)) as [tpl|] eqn:Htpl.
  2:{ destruct (script_raises c s) as (e & s1 & He & _); [|congruence].
      right. exists img. split; [done|]. by left. }
  destruct (matchTemplate (cvtColor_BGR2GRAY img) tpl (match_method c))
    as [res|] eqn:Hres.
  2:{ destruct (script_raises c s) as (e & s1 & He & _); [|congruence].
      right. exists img. split; [done|]. right. by exists tpl. }
  rewrite (script_run c s img tpl res) in Hrun by done.
  injection Hrun as <- <-. by exists img, tpl, res.
Qed.

(** The matching ends well only when both files are read and OpenCV
    returns a score map. *)
Lemma load_and_match_ok_inv c s e s1 :
  load_and_match c s = (Ok e, s1) →
  ∃ img tpl res,
    reads c img tpl res
    ∧ e = matched_env (heap s) img tpl
    ∧ s1 = matched_state s img tpl res.
Proof.
  intros Hrun.
  destruct (imread (Data c)) as [img|] eqn:Himg;
    [|by rewrite load_and_match_no_photo in Hrun].
  destruct (imread_grayscale (template c)) as [tpl|] eqn:Htpl;
    [|by rewrite (load_and_match_no_template c s img) in Hrun].
  destruct (matchTemplate (cvtColor_BGR2GRAY img) tpl (match_method c))
    as [res|] eqn:Hres;
    [|by rewrite (load_and_match_rejected c s img tpl) in Hrun].
  rewrite (load_and_match_run c s img tpl res) in Hrun by done.
  injection Hrun as <- <-. by exists img, tpl, res.
Qed.

(** When OpenCV rejects the photo and the template, its error ends the
    run: no score map is created, nothing is detected or written. The
    script has no check of the dimensions of its own. *)
Lemma script_rejected c s img tpl :
  imread (Data c) = Some img →
  imread_grayscale (template c) = Some tpl →
  matchTemplate (cvtColor_BGR2GRAY img) tpl (match_method c) = None →
  script c s
  = (Raise CvError,
     State (heap_template (heap s) img tpl) (windows s ++ ["Detected"])
       (stdout s ++ [dims_line (width tpl) (height tpl)]) (written s)).
Proof.
  intros Himg Htpl Hres. unfold script, mbind, M_bind, bind.
  by rewrite (load_and_match_rejected c s img tpl).
Qed.

Lemma locate_heap c e s r s' : locate c e s = (r, s') → heap s' = heap s.
Proof.
  destruct e as [? ? ? ? ? [l|]], s as [h ? ? ?]; run; [|by intros [= _ <-]].
  destruct (h !! l) as [[]|]; by intros [= _ <-].
Qed.

(** The score map is still in the store when a run has ended well. *)
Lemma final_heap_res c s img tpl res :
  heap (final_state c s img tpl res) !! l_res (heap s) img tpl
  = Some (NdScore res).
Proof.
  destruct (l_rgb_fresh (heap s) img tpl) as (_ & _ & Hr).
  unfold final_state, heap_annotated. simpl.
  apply lookup_push_old. rewrite lookup_insert_ne by done.
  apply lookup_res.
Qed.

Lemma dims_line_not_msg tw th : dims_line tw th ≠ no_matches_msg.
Proof. unfold dims_line, no_matches_msg, nl. simpl. by intros [=]. Qed.

Lemma count_line_not_msg n : count_line n ≠ no_matches_msg.
Proof. unfold count_line, no_matches_msg. simpl. by intros [=]. Qed.

End Runs.

(** * The claims *)

Section Claims.
Context `{Cv2}.

(** C1. The detections of a run are exactly the coordinates (x, y) of the
    score map whose score is at or above the threshold (an inclusive
    comparison): each of them is emitted, and nothing else is. *)
Theorem detections_exactly_at_threshold c s img tpl res :
  reads c img tpl res →
  ∃ v s',
    script c s = (Ok v, s')
    ∧ Forall (λ pt, ∃ x y, pt = [x; y]) (v_detections v)
    ∧ ∀ x y,
        [x; y] ∈ v_detections v ↔
        ∃ sc, entry_at res x y = Some sc ∧ SFleb (threshold c) sc = true.
Proof.
  intros (Himg & Htpl & Hres). eexists _, _.
  split; [by apply script_run|]. simpl.
  split; [apply locations_pairs | apply elem_of_locations].
Qed.

(** C2 (amended). When the score map has (H_img - h + 1) rows of
    (W_img - w + 1) columns, as OpenCV returns it for a template that is no
    larger than the photo, every detection (x, y) satisfies
    0 ≤ x ≤ W_img - w and 0 ≤ y ≤ H_img - h, and the score stored at (x, y)
    is at or above the threshold. The script does not check the two sizes,
    and without that shape the bounds can fail. *)
Theorem detections_within_bounds c s img tpl res :
  reads c img tpl res →
  has_shape res
    (height (cvtColor_BGR2GRAY img) - height tpl + 1)
    (width (cvtColor_BGR2GRAY img) - width tpl + 1) →
  ∃ v s',
    script c s = (Ok v, s')
    ∧ e_w (v_env v) = width tpl ∧ e_h (v_env v) = height tpl
    ∧ ∀ x y,
        [x; y] ∈ v_detections v →
        0 ≤ x ≤ width (cvtColor_BGR2GRAY img) - width tpl
        ∧ 0 ≤ y ≤ height (cvtColor_BGR2GRAY img) - height tpl
        ∧ ∃ sc, entry_at res x y = Some sc
                ∧ SFleb (threshold c) sc = true.
Proof.
  intros (Himg & Htpl & Hres) Hshape. eexists _, _.
  split; [by apply script_run|]. simpl. split_and!; [done..|].
  intros x y (sc & Hsc & Hge)%elem_of_locations.
  destruct (entry_at_bounds _ _ _ _ _ _ Hshape Hsc).
  split_and!; [lia.. | by exists sc].
Qed.

(** C3. For the same photo and template, a run at a threshold t2 reports
    no more detections than a run at a threshold t1 ≤ t2. *)
Theorem threshold_monotone c s1 s2 img tpl res out2 t2 :
  reads c img tpl res →
  SFleb (threshold c) t2 = true →
  ∃ v1 s1' v2 s2',
    script c s1 = (Ok v1, s1')
    ∧ script (Config (Data c) (template c) out2 (match_method c) t2) s2
      = (Ok v2, s2')
    ∧ (length (v_detections v2) ≤ length (v_detections v1))%nat.
Proof.
  intros (Himg & Htpl & Hres) Ht. eexists _, _, _, _.
  split; [by apply script_run|].
  split; [by apply (script_run _ _ img tpl res)|]. simpl.
  rewrite !locations_length. by apply count_ge_mono.
Qed.

(** C4. The message about no matches is never printed, whatever the
    files and the threshold and however the run ends: the guard tests the
    tuple that [np.where] returns, which has two arrays and is therefore
    truthy even when the arrays are empty. *)
Theorem no_matches_message_never_printed c s :
  ∃ lines,
    stdout (script c s).2 = stdout s ++ lines
    ∧ Forall (λ line, line ≠ no_matches_msg) lines
    ∧ ∀ v, (script c s).1 = Ok v →
           length (v_loc v) = 2%nat ∧ Py.truthy (v_loc v) = true.
Proof.
  destruct (imread (Data c)) as [img|] eqn:Himg.
  2:{ destruct (script_raises c s) as (e & s1 & -> & _ & _ & Hout);
        [by left|]. simpl.
      destruct Hout as [-> | (tw & th & ->)].
      - exists []. by rewrite app_nil_r.
      - exists [dims_line tw th]. split_and!; [done | | done].
        repeat constructor. apply dims_line_not_msg. }
  destruct (imread_grayscale (template c)) as [tpl|] eqn:Htpl.
  2:{ destruct (script_raises c s) as (e & s1 & -> & _ & _ & Hout).
      { right. exists img. split; [done|]. by left. }
      simpl. destruct Hout as [-> | (tw & th & ->)].
      - exists []. by rewrite app_nil_r.
      - exists [dims_line tw th]. split_and!; [done | | done].
        repeat constructor. apply dims_line_not_msg. }
  destruct (matchTemplate (cvtColor_BGR2GRAY img) tpl (match_method c))
    as [res|] eqn:Hres.
  2:{ destruct (script_raises c s) as (e & s1 & -> & _ & _ & Hout).
      { right. exists img. split; [done|]. right. by exists tpl. }
      simpl. destruct Hout as [-> | (tw & th & ->)].
      - exists []. by rewrite app_nil_r.
      - exists [dims_line tw th]. split_and!; [done | | done].
        repeat constructor. apply dims_line_not_msg. }
  rewrite (script_run c s img tpl res) by done. simpl.
  eexists. split_and!; [done | | by intros v [= <-]].
  repeat constructor; [apply dims_line_not_msg | apply count_line_not_msg].
Qed.

(** C5 (amended). The script does not look at the dimensions of the
    template: what becomes of a photo and a template is what OpenCV makes of
    them. When [cv2.matchTemplate] raises, the run ends with its error, no
    score map has been created and nothing is written; when it returns a
    score map, the run ends well with that map in the store, whatever the two
    sizes. *)
Theorem dimensions_left_to_opencv c s img tpl :
  imread (Data c) = Some img →
  imread_grayscale (template c) = Some tpl →
  (matchTemplate (cvtColor_BGR2GRAY img) tpl (match_method c) = None →
   ∃ s',
     script c s = (Raise CvError, s')
     ∧ written s' = written s
     ∧ ∀ l g, heap s' !! l = Some (NdScore g) →
              heap s !! l = Some (NdScore g))
  ∧ (∀ res,
       matchTemplate (cvtColor_BGR2GRAY img) tpl (match_method c)
       = Some res →
       ∃ v s' l,
         script c s = (Ok v, s')
         ∧ e_res (v_env v) = Some l
         ∧ heap s' !! l = Some (NdScore res)).
Proof.
  intros Himg Htpl. split.
  - intros Hres. eexists.
    split; [by apply (script_rejected c s img tpl)|]. simpl.
    split; [done|]. intros l g.
    unfold heap_template, heap_gray, heap_rgb, push.
    rewrite !lookup_insert. repeat case_decide; done.
  - intros res Hres. eexists _, _, _.
    split; [by apply (script_run c s img tpl res)|]. simpl.
    split; [done | apply final_heap_res].
Qed.

(** C6. When no entry of the score map reaches the threshold, the rest of
    the script still runs: the loop draws nothing, so the photo is as it
    was read, the count 0 is printed, and the photo without rectangles is
    resized and written to the output path. *)
Theorem zero_detections_run c s img tpl res :
  reads c img tpl res →
  count_ge res (threshold c) = 0%nat →
  ∃ v s',
    script c s = (Ok v, s')
    ∧ v_detections v = []
    ∧ (∃ l, e_img_rgb (v_env v) = Some l
            ∧ heap s' !! l = Some (NdColor img))
    ∧ stdout s'
      = stdout s ++ [dims_line (width tpl) (height tpl);
                     "Detections found = 0 "]
    ∧ written s'
      = written s ++ [(out c, NdColor (resize img (1000, 960)))].
Proof.
  intros (Himg & Htpl & Hres) Hcount. eexists _, _.
  split; [by apply script_run|].
  assert (locations res (threshold c) = []) as Hnone.
  { apply length_zero_iff_nil. by rewrite locations_length. }
  unfold final_vars, final_state, output_image, heap_annotated.
  rewrite Hnone. simpl. split_and!; try done.
  exists (l_rgb (heap s)). split; [done|].
  apply lookup_push_old, lookup_insert_eq.
Qed.

(** C7. Two runs on the same photo, template and threshold end with the
    same sequence of detections, in the same order, whatever the state
    each starts from and wherever each writes its output; and when one
    raises, so does the other. *)
Theorem detections_deterministic c s1 s2 out2 :
  emitted (script c s1).1
  = emitted
      (script
         (Config (Data c) (template c) out2 (match_method c) (threshold c))
         s2).1.
Proof.
  set (c2 := Config _ _ _ _ _).
  destruct (imread (Data c)) as [img|] eqn:Himg.
  2:{ destruct (script_raises c s1) as (? & ? & -> & _); [by left|].
      destruct (script_raises c2 s2) as (? & ? & -> & _); [by left|].
      done. }
  destruct (imread_grayscale (template c)) as [tpl|] eqn:Htpl.
  2:{ destruct (script_raises c s1) as (? & ? & -> & _).
      { right. exists img. split; [done|]. by left. }
      destruct (script_raises c2 s2) as (? & ? & -> & _); [|done].
      right. exists img. split; [done|]. by left. }
  destruct (matchTemplate (cvtColor_BGR2GRAY img) tpl (match_method c))
    as [res|] eqn:Hres.
  2:{ destruct (script_raises c s1) as (? & ? & -> & _).
      { right. exists img. split; [done|]. right. by exists tpl. }
      destruct (script_raises c2 s2) as (? & ? & -> & _); [|done].
      right. exists img. split; [done|]. right. by exists tpl. }
  rewrite (script_run c s1 img tpl res) by done.
  by rewrite (script_run c2 s2 img tpl res).
Qed.

(** C8. The detections come in the order of the scan of the score map,
    row after row and left to right within a row, and there is one for
    every entry at or above the threshold: neighbours are neither merged
    nor dropped. *)
Theorem detections_in_scan_order c s img tpl res :
  reads c img tpl res →
  ∃ v s',
    script c s = (Ok v, s')
    ∧ StronglySorted scan_lt (v_detections v)
    ∧ length (v_detections v) = count_ge res (threshold c).
Proof.
  intros (Himg & Htpl & Hres). eexists _, _.
  split; [by apply script_run|]. simpl.
  split; [apply locations_sorted | apply locations_length].
Qed.

(** C9. A run that ends well has written one file, at the output path:
    the photo with one rectangle drawn per detection, from the detection
    to the detection plus the size of the template, resized to 1000 by
    960 whatever the size of the photo. The detections are the coordinates
    of the score map at or above the threshold, each once, in the order of
    the scan. *)
Theorem output_written_once c s v s' :
  script c s = (Ok v, s') →
  ∃ img tpl res,
    reads c img tpl res
    ∧ Forall (λ pt, ∃ x y, pt = [x; y]) (v_detections v)
    ∧ (∀ x y,
         [x; y] ∈ v_detections v ↔
         ∃ sc, entry_at res x y = Some sc ∧ SFleb (threshold c) sc = true)
    ∧ StronglySorted scan_lt (v_detections v)
    ∧ length (v_detections v) = count_ge res (threshold c)
    ∧ e_w (v_env v) = width tpl ∧ e_h (v_env v) = height tpl
    ∧ written s'
      = written s
        ++ [(out c,
             NdColor
               (resize
                  (annotated (width tpl) (height tpl) img (v_detections v))
                  (1000, 960)))].
Proof.
  intros (img & tpl & res & Himg & Htpl & Hres & -> & ->)%script_ok_inv.
  exists img, tpl, res. simpl.
  split_and!; [done | apply locations_pairs | apply elem_of_locations
              | apply locations_sorted | apply locations_length
              | done..].
Qed.

(** C10. The loop changes the photo only: when it ends, however it ends,
    the gray-scale photo, the template and the score map hold what they
    held after the matching. *)
Theorem annotation_frame c s e s1 loc s1' r s2 :
  load_and_match c s = (Ok e, s1) →
  locate c e s1 = (Ok loc, s1') →
  annotate e loc s1' = (r, s2) →
  (∃ l g, e_img_gray e = Some l ∧ heap s1 !! l = Some (NdGray g)
          ∧ heap s2 !! l = Some (NdGray g))
  ∧ (∃ l g, e_template e = Some l ∧ heap s1 !! l = Some (NdGray g)
            ∧ heap s2 !! l = Some (NdGray g))
  ∧ (∃ l g, e_res e = Some l ∧ heap s1 !! l = Some (NdScore g)
            ∧ heap s2 !! l = Some (NdScore g)).
Proof.
  intros (img & tpl & res & _ & -> & ->)%load_and_match_ok_inv
    Hloc%locate_heap Hloop.
  apply for_each_loop_body_frame in Hloop as (Hframe & _).
  destruct (l_rgb_fresh (heap s) img tpl) as (Hg & Ht & Hr).
  simpl in *. split_and!.
  - exists (l_gray (heap s) img), (cvtColor_BGR2GRAY img).
    rewrite Hframe, Hloc by congruence.
    split_and!; [done | apply lookup_gray ..].
  - exists (l_template (heap s) img), tpl.
    rewrite Hframe, Hloc by congruence.
    split_and!; [done | apply lookup_template ..].
  - exists (l_res (heap s) img tpl), res.
    rewrite Hframe, Hloc by congruence.
    split_and!; [done | apply lookup_res ..].
Qed.

End Claims.

(** * The claims on the small world *)

Section Examples.
#[local] Existing Instance Fixture.cv2.

(** The scan on the score map of the small world: row indices, then column
    indices; reversed and zipped they are the tuples [x, y]. Two neighbours
    are both kept. *)
Example where_scores :
  Py.np_where (Py.ge_mask Fixture.scores Fixture.half) = [[1; 1]; [1; 2]].
Proof. reflexivity. Qed.

Example locations_scores :
  locations Fixture.scores Fixture.half = [[1; 1]; [2; 1]].
Proof. reflexivity. Qed.

(** No entry reaches the threshold: two empty arrays, and a tuple that is
    still truthy, unlike the empty tuple. *)
Example where_nothing :
  Py.np_where (Py.ge_mask Fixture.no_scores Fixture.half) = [[]; []].
Proof. reflexivity. Qed.

Example guard_on_nothing :
  Py.truthy (Py.np_where (Py.ge_mask Fixture.no_scores Fixture.half)) = true
  ∧ Py.truthy (@nil (list Z)) = false.
Proof. split; reflexivity. Qed.

(** The comparison is inclusive, and a NaN is never kept. *)
Example threshold_is_inclusive :
  locations [[Fixture.half]] Fixture.half = [[0; 0]].
Proof. reflexivity. Qed.

Example nan_is_not_kept :
  locations [[S754_nan; Fixture.one]] Fixture.half = [[1; 0]]
  ∧ locations [[Fixture.one]] S754_nan = [].
Proof. split; reflexivity. Qed.

Example printed_lines :
  dims_line 2 1 = nl +:+ "Template dimensions: Width = 2, Height = 1"
  ∧ count_line 2 = "Detections found = 2 ".
Proof. split; reflexivity. Qed.

(** The matching of the small world, and a run without the template file. *)
Example load_and_match_default :
  (load_and_match default_config init).1
  = Ok (Env (Some 0%nat) (Some 1%nat) (Some 2%nat) 2 1 (Some 3%nat)).
Proof. vm_compute. reflexivity. Qed.

Example load_and_match_missing_template :
  (load_and_match
     (Config "ww2.jpg" "nowhere.png" "out.png" TM_CCOEFF_NORMED Fixture.half)
     init).1
  = Raise AttributeError.
Proof. vm_compute. reflexivity. Qed.

Lemma detections_exactly_at_threshold_witness :
  reads default_config Fixture.photo Fixture.patch Fixture.scores
  ∧ ∃ v s',
      script default_config init = (Ok v, s')
      ∧ Forall (λ pt, ∃ x y, pt = [x; y]) (v_detections v)
      ∧ ∀ x y,
          [x; y] ∈ v_detections v ↔
          ∃ sc, entry_at Fixture.scores x y = Some sc
                ∧ SFleb (threshold default_config) sc = true.
Proof.
  split; [by repeat split|].
  apply (detections_exactly_at_threshold default_config init
           Fixture.photo Fixture.patch Fixture.scores).
  by repeat split.
Defined.

Lemma detections_within_bounds_witness :
  reads default_config Fixture.photo Fixture.patch Fixture.scores
  ∧ has_shape Fixture.scores (3 - 1 + 1) (4 - 2 + 1)
  ∧ ∃ v s',
      script default_config init = (Ok v, s')
      ∧ e_w (v_env v) = 2 ∧ e_h (v_env v) = 1
      ∧ ∀ x y,
          [x; y] ∈ v_detections v →
          0 ≤ x ≤ 4 - 2 ∧ 0 ≤ y ≤ 3 - 1
          ∧ ∃ sc, entry_at Fixture.scores x y = Some sc
                  ∧ SFleb (threshold default_config) sc = true.
Proof.
  split; [by repeat split|].
  split; [split; [reflexivity | by repeat constructor]|].
  refine (detections_within_bounds default_config init
            Fixture.photo Fixture.patch Fixture.scores _ _).
  - by repeat split.
  - split; [reflexivity | by repeat constructor].
Defined.

Lemma threshold_monotone_witness :
  reads default_config Fixture.photo Fixture.patch Fixture.scores
  ∧ SFleb (threshold default_config) Fixture.one = true
  ∧ ∃ v1 s1' v2 s2',
      script default_config init = (Ok v1, s1')
      ∧ script
          (Config "ww2.jpg" "Waldo.png" "Strict.png" TM_CCOEFF_NORMED
             Fixture.one) init
        = (Ok v2, s2')
      ∧ (length (v_detections v2) ≤ length (v_detections v1))%nat.
Proof.
  split; [by repeat split|]. split; [reflexivity|].
  apply (threshold_monotone default_config init init
           Fixture.photo Fixture.patch Fixture.scores "Strict.png"
           Fixture.one).
  - by repeat split.
  - reflexivity.
Defined.

Lemma zero_detections_run_witness :
  reads Fixture.no_match_config Fixture.photo Fixture.blank
    Fixture.no_scores
  ∧ count_ge Fixture.no_scores (threshold Fixture.no_match_config) = 0%nat
  ∧ ∃ v s',
      script Fixture.no_match_config init = (Ok v, s')
      ∧ v_detections v = []
      ∧ (∃ l, e_img_rgb (v_env v) = Some l
              ∧ heap s' !! l = Some (NdColor Fixture.photo))
      ∧ stdout s'
        = [dims_line 2 1; "Detections found = 0 "]
      ∧ written s'
        = [("Detections.png",
            NdColor (resize Fixture.photo (1000, 960)))].
Proof.
  split; [by repeat split|]. split; [reflexivity|].
  apply (zero_detections_run Fixture.no_match_config init
           Fixture.photo Fixture.blank Fixture.no_scores).
  - by repeat split.
  - reflexivity.
Defined.

Lemma detections_in_scan_order_witness :
  reads default_config Fixture.photo Fixture.patch Fixture.scores
  ∧ ∃ v s',
      script default_config init = (Ok v, s')
      ∧ StronglySorted scan_lt (v_detections v)
      ∧ length (v_detections v)
        = count_ge Fixture.scores (threshold default_config).
Proof.
  split; [by repeat split|].
  apply (detections_in_scan_order default_config init
           Fixture.photo Fixture.patch Fixture.scores).
  by repeat split.
Defined.

Lemma output_written_once_witness :
  ∃ v s',
    script default_config init = (Ok v, s')
    ∧ ∃ img tpl res,
        reads default_config img tpl res
        ∧ Forall (λ pt, ∃ x y, pt = [x; y]) (v_detections v)
        ∧ (∀ x y,
             [x; y] ∈ v_detections v ↔
             ∃ sc, entry_at res x y = Some sc
                   ∧ SFleb (threshold default_config) sc = true)
        ∧ StronglySorted scan_lt (v_detections v)
        ∧ length (v_detections v) = count_ge res (threshold default_config)
        ∧ e_w (v_env v) = width tpl ∧ e_h (v_env v) = height tpl
        ∧ written s'
          = written init
            ++ [("Detections.png",
                 NdColor
                   (resize
                      (annotated (width tpl) (height tpl) img
                         (v_detections v))
                      (1000, 960)))].
Proof.
  pose proof (script_run default_config init Fixture.photo Fixture.patch
                Fixture.scores eq_refl eq_refl eq_refl) as Hrun.
  eexists _, _. split; [exact Hrun|].
  exact (output_written_once default_config init _ _ Hrun).
Defined.

Lemma annotation_frame_witness :
  ∃ e s1 loc r s2,
    load_and_match default_config init = (Ok e, s1)
    ∧ locate default_config e s1 = (Ok loc, s1)
    ∧ annotate e loc s1 = (r, s2)
    ∧ (∃ l g, e_img_gray e = Some l ∧ heap s1 !! l = Some (NdGray g)
              ∧ heap s2 !! l = Some (NdGray g))
    ∧ (∃ l g, e_template e = Some l ∧ heap s1 !! l = Some (NdGray g)
              ∧ heap s2 !! l = Some (NdGray g))
    ∧ (∃ l g, e_res e = Some l ∧ heap s1 !! l = Some (NdScore g)
              ∧ heap s2 !! l = Some (NdScore g)).
Proof.
  eexists _, _, _, _, _.
  split; [vm_compute; reflexivity|].
  split; [vm_compute; reflexivity|].
  split; [vm_compute; reflexivity|].
  eapply (annotation_frame default_config init); vm_compute; reflexivity.
Defined.

End Examples.


(** * Further properties of the runs *)

Section Further.
Context `{Cv2}.

Lemma script_no_photo c s :
  imread (Data c) = None →
  script c s
  = (Raise CvError,
     State (heap s) (windows s ++ ["Detected"]) (stdout s) (written s)).
Proof.
  intros Himg. unfold script, mbind, M_bind, bind.
  by rewrite load_and_match_no_photo.
Qed.

Lemma script_no_template c s img :
  imread (Data c) = Some img →
  imread_grayscale (template c) = None →
  script c s
  = (Raise AttributeError,
     State (heap_gray (heap s) img) (windows s ++ ["Detected"]) (stdout s)
       (written s)).
Proof.
  intros Himg Htpl. unfold script, mbind, M_bind, bind.
  by rewrite (load_and_match_no_template c s img).
Qed.

(** The four ways a run can go, by what the files and OpenCV give. *)
Lemma script_cases c s :
  (imread (Data c) = None
   ∧ script c s
     = (Raise CvError,
        State (heap s) (windows s ++ ["Detected"]) (stdout s) (written s)))
  ∨ (∃ img,
       imread (Data c) = Some img
       ∧ imread_grayscale (template c) = None
       ∧ script c s
         = (Raise AttributeError,
            State (heap_gray (heap s) img) (windows s ++ ["Detected"])
              (stdout s) (written s)))
  ∨ (∃ img tpl,
       imread (Data c) = Some img
       ∧ imread_grayscale (template c) = Some tpl
       ∧ matchTemplate (cvtColor_BGR2GRAY img) tpl (match_method c) = None
       ∧ script c s
         = (Raise CvError,
            State (heap_template (heap s) img tpl)
              (windows s ++ ["Detected"])
              (stdout s ++ [dims_line (width tpl) (height tpl)])
              (written s)))
  ∨ (∃ img tpl res,
       reads c img tpl res
       ∧ script c s
         = (Ok (final_vars c (heap s) img tpl res),
            final_state c s img tpl res)).
Proof.
  destruct (imread (Data c)) as [img|] eqn:Himg;
    [|left; split; [done | by apply script_no_photo]].
  destruct (imread_grayscale (template c)) as [tpl|] eqn:Htpl;
    [|right; left; exists img; split_and!;
      [done | done | by apply script_no_template]].
  destruct (matchTemplate (cvtColor_BGR2GRAY img) tpl (match_method c))
    as [res|] eqn:Hres.
  - do 3 right. exists img, tpl, res. split; [done|]. by apply script_run.
  - do 2 right. left. exists img, tpl.
    split_and!; [done | done | done | by apply script_rejected].
Qed.

(** A [NaN] is at or above nothing, and nothing is at or above it. *)
Lemma SFleb_nan_l (sc : score) : SFleb S754_nan sc = false.
Proof. by destruct sc. Qed.

Lemma SFleb_nan_r (thr : score) : SFleb thr S754_nan = false.
Proof. by destruct thr as [| | |]. Qed.

Lemma filter_nan (row : list score) : List.filter (SFleb S754_nan) row = [].
Proof. induction row as [|sc row IH]; [done|]. simpl. exact IH. Qed.

Lemma count_ge_nan (res : grid score) : count_ge res S754_nan = 0%nat.
Proof.
  unfold count_ge. induction res as [|row res IH]; [done|].
  rewrite fmap_cons. simpl. by rewrite IH, filter_nan.
Qed.

Lemma SFleb_neg_infinity (sc : score) :
  SFleb (S754_infinity true) sc = true ↔ sc ≠ S754_nan.
Proof. destruct sc as [[]|[]| |[] ? ?]; simpl; split; done. Qed.

Lemma StronglySorted_irrefl_NoDup {A} (R : relation A) (l : list A) :
  (∀ a, ¬ R a a) → StronglySorted R l → NoDup l.
Proof.
  intros Hirr Hl. induction Hl as [|a l _ IH Ha]; constructor; [|done].
  intros Hin. rewrite Forall_forall in Ha. by apply (Hirr a), Ha.
Qed.

Lemma scan_lt_irrefl (p : list Z) : ¬ scan_lt p p.
Proof.
  unfold scan_lt. intros Hp.
  destruct p as [|x [|y [|? ?]]]; try done. lia.
Qed.

Lemma nonzero_row_sublist t1 t2 y x0 (row : list score) :
  SFleb t1 t2 = true →
  Py.nonzero_row y x0 (SFleb t2 <$> row)
    `sublist_of` Py.nonzero_row y x0 (SFleb t1 <$> row).
Proof.
  intros Ht. revert x0. induction row as [|sc row IH]; intros x0; [done|].
  rewrite !fmap_cons. simpl. destruct (SFleb t2 sc) eqn:H2.
  - rewrite (SFleb_trans t1 t2 sc Ht H2). simpl. apply sublist_skip, IH.
  - destruct (SFleb t1 sc); simpl; [apply sublist_cons|]; apply IH.
Qed.

Lemma locations_sublist res t1 t2 :
  SFleb t1 t2 = true → locations res t2 `sublist_of` locations res t1.
Proof.
  intros Ht. rewrite !locations_eq. apply fmap_sublist.
  unfold Py.ge_mask. generalize 0.
  induction res as [|row res IH]; intros y0; [done|].
  rewrite !fmap_cons. simpl.
  apply sublist_app; [by apply nonzero_row_sublist | apply IH].
Qed.

(** X1. Every run creates the window named Detected, once, whether it ends
    well or raises. *)
Theorem window_created_on_every_run c s :
  windows (script c s).2 = windows s ++ ["Detected"].
Proof.
  destruct (script_cases c s)
    as [(_ & ->) | [(img & _ & _ & ->) | [(img & tpl & _ & _ & _ & ->)
       | (img & tpl & res & _ & ->)]]]; done.
Qed.

(** X2. When the photo cannot be read, the run ends with the OpenCV error
    of the colour conversion: no array is created, nothing is printed and
    nothing is written. *)
Theorem missing_photo_ends_run c s :
  imread (Data c) = None →
  ∃ s',
    script c s = (Raise CvError, s')
    ∧ heap s' = heap s ∧ stdout s' = stdout s ∧ written s' = written s.
Proof. intros Himg. eexists. split; [by apply script_no_photo | done]. Qed.

(** X3. When the photo is read and the template cannot be, the run ends
    with an AttributeError, at the shape of the template: nothing is printed
    and nothing is written. *)
Theorem missing_template_ends_run c s img :
  imread (Data c) = Some img →
  imread_grayscale (template c) = None →
  ∃ s',
    script c s = (Raise AttributeError, s')
    ∧ stdout s' = stdout s ∧ written s' = written s.
Proof.
  intros Himg Htpl. eexists.
  split; [by apply (script_no_template c s img) | done].
Qed.

(** X4. When OpenCV rejects the photo and the template, the run ends with
    its error after the line with the template dimensions is printed; no
    score map has been created and nothing is written. *)
Theorem rejected_pair_ends_run c s img tpl :
  imread (Data c) = Some img →
  imread_grayscale (template c) = Some tpl →
  matchTemplate (cvtColor_BGR2GRAY img) tpl (match_method c) = None →
  ∃ s',
    script c s = (Raise CvError, s')
    ∧ stdout s' = stdout s ++ [dims_line (width tpl) (height tpl)]
    ∧ written s' = written s
    ∧ ∀ l g, heap s' !! l = Some (NdScore g) →
             heap s !! l = Some (NdScore g).
Proof.
  intros Himg Htpl Hres. eexists.
  split; [by apply (script_rejected c s img tpl)|]. simpl.
  split_and!; [done..|]. intros l g.
  unfold heap_template, heap_gray, heap_rgb, push.
  rewrite !lookup_insert. repeat case_decide; done.
Qed.

(** X5. A run that raises ends with the OpenCV error or with the
    AttributeError, never with an index, unpacking or type error; it has
    written nothing and printed at most the line with the template
    dimensions. *)
Theorem failing_run_writes_nothing c s e s' :
  script c s = (Raise e, s') →
  (e = CvError ∨ e = AttributeError)
  ∧ written s' = written s
  ∧ (stdout s' = stdout s
     ∨ ∃ tw th, stdout s' = stdout s ++ [dims_line tw th]).
Proof.
  destruct (script_cases c s)
    as [(_ & ->) | [(img & _ & _ & ->) | [(img & tpl & _ & _ & _ & ->)
       | (img & tpl & res & _ & ->)]]]; intros [= <- <-]; simpl.
  - split_and!; [by left | done | by left].
  - split_and!; [by right | done | by left].
  - split_and!; [by left | done | right; eauto].
Qed.

(** X6. A run that ends well prints two lines: the width and the height of
    the template, the width being its number of columns and the height its
    number of rows, and the number of entries of the score map at or above
    the threshold. *)
Theorem printed_on_success c s img tpl res :
  reads c img tpl res →
  ∃ v s',
    script c s = (Ok v, s')
    ∧ e_w (v_env v) = width tpl ∧ e_h (v_env v) = height tpl
    ∧ stdout s'
      = stdout s
        ++ [dims_line (width tpl) (height tpl);
            count_line (Z.of_nat (count_ge res (threshold c)))].
Proof.
  intros (Himg & Htpl & Hres). eexists _, _.
  split; [by apply script_run|]. simpl.
  by rewrite locations_length.
Qed.

(** X7. The tuple [loc] holds the row indices and then the column indices
    of the entries of the score map at or above the threshold: a row index
    and a column index stand at the same place of the two arrays exactly
    when the entry of that row and column reaches the threshold. There are
    as many of each as there are detections, and the i-th detection is the
    i-th column index followed by the i-th row index: x is the column and y
    the row. *)
Theorem loc_matches_detections c s img tpl res :
  reads c img tpl res →
  ∃ v s' rows cols,
    script c s = (Ok v, s')
    ∧ v_loc v = [rows; cols]
    ∧ length rows = length (v_detections v)
    ∧ length cols = length (v_detections v)
    ∧ (∀ row col,
         (∃ i, rows !! i = Some row ∧ cols !! i = Some col) ↔
         ∃ sc, entry_at res col row = Some sc
               ∧ SFleb (threshold c) sc = true)
    ∧ ∀ i x y,
        v_detections v !! i = Some [x; y] ↔
        cols !! i = Some x ∧ rows !! i = Some y.
Proof.
  intros (Himg & Htpl & Hres). eexists _, _, _, _.
  split; [by apply script_run|]. simpl.
  split; [reflexivity|].
  assert (∀ i x y,
            locations res (threshold c) !! i = Some [x; y] ↔
            (Py.nonzero_from 0 (Py.ge_mask res (threshold c))).*2 !! i
              = Some x
            ∧ (Py.nonzero_from 0 (Py.ge_mask res (threshold c))).*1 !! i
              = Some y) as Hith.
  { intros i x y. rewrite locations_eq, !list_lookup_fmap.
    destruct (Py.nonzero_from 0 _ !! i) as [[r k]|]; simpl.
    - unfold as_xy. simpl. split.
      + by intros [= -> ->].
      + by intros [[= ->] [= ->]].
    - split; [done | by intros [? _]]. }
  split_and!; [by rewrite locations_eq, !length_fmap..| |exact Hith].
  intros row col. rewrite <- elem_of_locations, list_elem_of_lookup.
  split; intros (i & Hi); exists i.
  - apply Hith. tauto.
  - apply Hith in Hi. tauto.
Qed.

(** X8. No coordinate is reported twice. *)
Theorem detections_have_no_duplicates c s img tpl res :
  reads c img tpl res →
  ∃ v s', script c s = (Ok v, s') ∧ NoDup (v_detections v).
Proof.
  intros (Himg & Htpl & Hres). eexists _, _.
  split; [by apply script_run|]. simpl.
  eapply StronglySorted_irrefl_NoDup;
    [apply scan_lt_irrefl | apply locations_sorted].
Qed.

(** X9. For the same photo and template, the detections at a threshold
    t2 are a subsequence of the detections at a threshold t1 ≤ t2: raising
    the threshold drops detections and keeps the order of the others. *)
Theorem higher_threshold_subsequence c s1 s2 img tpl res out2 t2 :
  reads c img tpl res →
  SFleb (threshold c) t2 = true →
  ∃ v1 s1' v2 s2',
    script c s1 = (Ok v1, s1')
    ∧ script (Config (Data c) (template c) out2 (match_method c) t2) s2
      = (Ok v2, s2')
    ∧ v_detections v2 `sublist_of` v_detections v1.
Proof.
  intros (Himg & Htpl & Hres) Ht. eexists _, _, _, _.
  split; [by apply script_run|].
  split; [by apply (script_run _ _ img tpl res)|]. simpl.
  by apply locations_sublist.
Qed.

(** X10. With a NaN for threshold nothing is detected, whatever the score
    map: the run ends well, prints the count 0 and writes the photo without
    rectangles. *)
Theorem nan_threshold_detects_nothing c s img tpl res :
  reads c img tpl res →
  threshold c = S754_nan →
  ∃ v s',
    script c s = (Ok v, s')
    ∧ v_detections v = []
    ∧ stdout s'
      = stdout s ++ [dims_line (width tpl) (height tpl);
                     "Detections found = 0 "]
    ∧ written s'
      = written s ++ [(out c, NdColor (resize img (1000, 960)))].
Proof.
  intros (Himg & Htpl & Hres) Hnan. eexists _, _.
  split; [by apply script_run|].
  assert (locations res (threshold c) = []) as Hnone.
  { apply length_zero_iff_nil.
    by rewrite locations_length, Hnan, count_ge_nan. }
  unfold final_vars, final_state, output_image.
  rewrite Hnone. simpl. done.
Qed.

(** X11. With minus infinity for threshold the detections are exactly the
    coordinates of the entries that are not NaN. *)
Theorem lowest_threshold_detects_all_numbers c s img tpl res :
  reads c img tpl res →
  threshold c = S754_infinity true →
  ∃ v s',
    script c s = (Ok v, s')
    ∧ ∀ x y,
        [x; y] ∈ v_detections v ↔
        ∃ sc, entry_at res x y = Some sc ∧ sc ≠ S754_nan.
Proof.
  intros (Himg & Htpl & Hres) Hinf. eexists _, _.
  split; [by apply script_run|]. simpl. intros x y.
  rewrite elem_of_locations, Hinf.
  split; intros (sc & Hsc & Hok); exists sc; split; try done;
    by apply SFleb_neg_infinity.
Qed.

(** X12. The coordinates of a NaN entry of the score map are never among
    the detections, whatever the threshold. *)
Theorem nan_score_never_detected c s img tpl res :
  reads c img tpl res →
  ∃ v s',
    script c s = (Ok v, s')
    ∧ ∀ x y, entry_at res x y = Some S754_nan → [x; y] ∉ v_detections v.
Proof.
  intros (Himg & Htpl & Hres). eexists _, _.
  split; [by apply script_run|]. simpl.
  intros x y Hnan (sc & Hsc & Hge)%elem_of_locations.
  rewrite Hnan in Hsc. injection Hsc as <-.
  by rewrite SFleb_nan_r in Hge.
Qed.

(** X13. When a run ends well, the photo array holds the photo with the
    rectangles, not resized; the resized image is another array; and the
    gray-scale photo, the template and the score map are as the matching
    left them. *)
Theorem arrays_after_run c s img tpl res :
  reads c img tpl res →
  ∃ v s' l_photo l_gray l_tpl l_res l_out,
    script c s = (Ok v, s')
    ∧ e_img_rgb (v_env v) = Some l_photo
    ∧ e_img_gray (v_env v) = Some l_gray
    ∧ e_template (v_env v) = Some l_tpl
    ∧ e_res (v_env v) = Some l_res
    ∧ v_imS v = Some l_out
    ∧ l_out ≠ l_photo
    ∧ heap s' !! l_photo
      = Some (NdColor
                (annotated (width tpl) (height tpl) img (v_detections v)))
    ∧ heap s' !! l_out
      = Some (NdColor
                (resize
                   (annotated (width tpl) (height tpl) img
                      (v_detections v))
                   (1000, 960)))
    ∧ heap s' !! l_gray = Some (NdGray (cvtColor_BGR2GRAY img))
    ∧ heap s' !! l_tpl = Some (NdGray tpl)
    ∧ heap s' !! l_res = Some (NdScore res).
Proof.
  intros (Himg & Htpl & Hres). eexists _, _, _, _, _, _, _.
  split; [by apply script_run|]. simpl.
  destruct (l_rgb_fresh (heap s) img tpl) as (Hg & Ht & Hr).
  set (pts := locations res (threshold c)).
  assert (heap_annotated (heap s) img tpl res pts !! l_rgb (heap s)
          = Some (NdColor (annotated (width tpl) (height tpl) img pts)))
    as Hphoto by apply lookup_insert_eq.
  split_and!; try done.
  - by apply fresh_not_allocated with (x := NdColor
      (annotated (width tpl) (height tpl) img pts)).
  - by apply lookup_push_old.
  - apply lookup_push_new.
  - apply lookup_push_old. unfold heap_annotated.
    rewrite lookup_insert_ne by done. apply lookup_gray.
  - apply lookup_push_old. unfold heap_annotated.
    rewrite lookup_insert_ne by done. apply lookup_template.
  - apply lookup_push_old. unfold heap_annotated.
    rewrite lookup_insert_ne by done. apply lookup_res.
Qed.

End Further.

(** * The further properties on the small world *)

Section FurtherExamples.
#[local] Existing Instance Fixture.cv2.

Lemma missing_photo_ends_run_witness :
  imread "nowhere.jpg" = None
  ∧ ∃ s',
      script
        (Config "nowhere.jpg" "Waldo.png" "out.png" TM_CCOEFF_NORMED
           Fixture.half) init
      = (Raise CvError, s')
      ∧ heap s' = heap init ∧ stdout s' = stdout init
      ∧ written s' = written init.
Proof.
  split; [reflexivity|].
  apply (missing_photo_ends_run
           (Config "nowhere.jpg" "Waldo.png" "out.png" TM_CCOEFF_NORMED
              Fixture.half) init).
  reflexivity.
Defined.

Lemma missing_template_ends_run_witness :
  imread "ww2.jpg" = Some Fixture.photo
  ∧ imread_grayscale "nowhere.png" = None
  ∧ ∃ s',
      script
        (Config "ww2.jpg" "nowhere.png" "out.png" TM_CCOEFF_NORMED
           Fixture.half) init
      = (Raise AttributeError, s')
      ∧ stdout s' = stdout init ∧ written s' = written init.
Proof.
  split; [reflexivity|]. split; [reflexivity|].
  apply (missing_template_ends_run
           (Config "ww2.jpg" "nowhere.png" "out.png" TM_CCOEFF_NORMED
              Fixture.half) init Fixture.photo); reflexivity.
Defined.

Lemma printed_on_success_witness :
  reads default_config Fixture.photo Fixture.patch Fixture.scores
  ∧ ∃ v s',
      script default_config init = (Ok v, s')
      ∧ e_w (v_env v) = 2 ∧ e_h (v_env v) = 1
      ∧ stdout s' = [dims_line 2 1; count_line 2].
Proof.
  split; [by repeat split|].
  refine (printed_on_success default_config init Fixture.photo
            Fixture.patch Fixture.scores _).
  by repeat split.
Defined.

Lemma loc_matches_detections_witness :
  reads default_config Fixture.photo Fixture.patch Fixture.scores
  ∧ ∃ v s' rows cols,
      script default_config init = (Ok v, s')
      ∧ v_loc v = [rows; cols]
      ∧ length rows = length (v_detections v)
      ∧ length cols = length (v_detections v)
      ∧ (∀ row col,
           (∃ i, rows !! i = Some row ∧ cols !! i = Some col) ↔
           ∃ sc, entry_at Fixture.scores col row = Some sc
                 ∧ SFleb (threshold default_config) sc = true)
      ∧ ∀ i x y,
          v_detections v !! i = Some [x; y] ↔
          cols !! i = Some x ∧ rows !! i = Some y.
Proof.
  split; [by repeat split|].
  apply (loc_matches_detections default_config init Fixture.photo
           Fixture.patch Fixture.scores).
  by repeat split.
Defined.

Lemma detections_have_no_duplicates_witness :
  reads default_config Fixture.photo Fixture.patch Fixture.scores
  ∧ ∃ v s',
      script default_config init = (Ok v, s') ∧ NoDup (v_detections v).
Proof.
  split; [by repeat split|].
  apply (detections_have_no_duplicates default_config init Fixture.photo
           Fixture.patch Fixture.scores).
  by repeat split.
Defined.

Lemma higher_threshold_subsequence_witness :
  reads default_config Fixture.photo Fixture.patch Fixture.scores
  ∧ SFleb (threshold default_config) Fixture.one = true
  ∧ ∃ v1 s1' v2 s2',
      script default_config init = (Ok v1, s1')
      ∧ script
          (Config "ww2.jpg" "Waldo.png" "Strict.png" TM_CCOEFF_NORMED
             Fixture.one) init
        = (Ok v2, s2')
      ∧ v_detections v2 `sublist_of` v_detections v1.
Proof.
  split; [by repeat split|]. split; [reflexivity|].
  apply (higher_threshold_subsequence default_config init init
           Fixture.photo Fixture.patch Fixture.scores "Strict.png"
           Fixture.one).
  - by repeat split.
  - reflexivity.
Defined.

Lemma nan_threshold_detects_nothing_witness :
  reads
    (Config "ww2.jpg" "Waldo.png" "out.png" TM_CCOEFF_NORMED S754_nan)
    Fixture.photo Fixture.patch Fixture.scores
  ∧ ∃ v s',
      script
        (Config "ww2.jpg" "Waldo.png" "out.png" TM_CCOEFF_NORMED S754_nan)
        init
      = (Ok v, s')
      ∧ v_detections v = []
      ∧ stdout s' = [dims_line 2 1; "Detections found = 0 "]
      ∧ written s'
        = [("out.png", NdColor (resize Fixture.photo (1000, 960)))].
Proof.
  split; [by repeat split|].
  refine (nan_threshold_detects_nothing
            (Config "ww2.jpg" "Waldo.png" "out.png" TM_CCOEFF_NORMED
               S754_nan)
            init Fixture.photo Fixture.patch Fixture.scores _ _).
  - by repeat split.
  - reflexivity.
Defined.

Lemma lowest_threshold_detects_all_numbers_witness :
  reads
    (Config "ww2.jpg" "Waldo.png" "out.png" TM_CCOEFF_NORMED
       (S754_infinity true))
    Fixture.photo Fixture.patch Fixture.scores
  ∧ ∃ v s',
      script
        (Config "ww2.jpg" "Waldo.png" "out.png" TM_CCOEFF_NORMED
           (S754_infinity true))
        init
      = (Ok v, s')
      ∧ ∀ x y,
          [x; y] ∈ v_detections v ↔
          ∃ sc, entry_at Fixture.scores x y = Some sc ∧ sc ≠ S754_nan.
Proof.
  split; [by repeat split|].
  apply (lowest_threshold_detects_all_numbers
           (Config "ww2.jpg" "Waldo.png" "out.png" TM_CCOEFF_NORMED
              (S754_infinity true))
           init Fixture.photo Fixture.patch Fixture.scores).
  - by repeat split.
  - reflexivity.
Defined.

Lemma arrays_after_run_witness :
  reads default_config Fixture.photo Fixture.patch Fixture.scores
  ∧ ∃ v s' l_photo l_gray l_tpl l_res l_out,
      script default_config init = (Ok v, s')
      ∧ e_img_rgb (v_env v) = Some l_photo
      ∧ e_img_gray (v_env v) = Some l_gray
      ∧ e_template (v_env v) = Some l_tpl
      ∧ e_res (v_env v) = Some l_res
      ∧ v_imS v = Some l_out
      ∧ l_out ≠ l_photo
      ∧ heap s' !! l_photo
        = Some (NdColor (annotated 2 1 Fixture.photo (v_detections v)))
      ∧ heap s' !! l_out
        = Some (NdColor
                  (resize (annotated 2 1 Fixture.photo (v_detections v))
                     (1000, 960)))
      ∧ heap s' !! l_gray
        = Some (NdGray (cvtColor_BGR2GRAY Fixture.photo))
      ∧ heap s' !! l_tpl = Some (NdGray Fixture.patch)
      ∧ heap s' !! l_res = Some (NdScore Fixture.scores).
Proof.
  split; [by repeat split|].
  refine (arrays_after_run default_config init Fixture.photo
            Fixture.patch Fixture.scores _).
  by repeat split.
Defined.

End FurtherExamples.

Section OversizeExamples.
#[local] Existing Instance Oversize.cv2.

Lemma rejected_pair_ends_run_witness :
  imread "ww2.jpg" = Some Fixture.photo
  ∧ imread_grayscale "Waldo.png" = Some Oversize.wide
  ∧ matchTemplate (cvtColor_BGR2GRAY Fixture.photo) Oversize.wide
      TM_CCOEFF_NORMED = None
  ∧ ∃ s',
      script default_config init = (Raise CvError, s')
      ∧ stdout s' = stdout init ++ [dims_line 5 1]
      ∧ written s' = written init
      ∧ ∀ l g, heap s' !! l = Some (NdScore g) →
               heap init !! l = Some (NdScore g).
Proof.
  split; [reflexivity|]. split; [reflexivity|]. split; [reflexivity|].
  apply (rejected_pair_ends_run default_config init Fixture.photo
           Oversize.wide); reflexivity.
Defined.

Lemma failing_run_writes_nothing_witness :
  ∃ e s',
    script default_config init = (Raise e, s')
    ∧ (e = CvError ∨ e = AttributeError)
    ∧ written s' = written init
    ∧ (stdout s' = stdout init
       ∨ ∃ tw th, stdout s' = stdout init ++ [dims_line tw th]).
Proof.
  eexists _, _. split; [vm_compute; reflexivity|].
  eapply (failing_run_writes_nothing default_config init).
  vm_compute. reflexivity.
Defined.


Lemma dimensions_left_to_opencv_witness :
  imread "ww2.jpg" = Some Fixture.photo
  ∧ imread_grayscale "Waldo.png" = Some Oversize.wide
  ∧ (matchTemplate (cvtColor_BGR2GRAY Fixture.photo) Oversize.wide
       TM_CCOEFF_NORMED = None →
     ∃ s',
       script default_config init = (Raise CvError, s')
       ∧ written s' = written init
       ∧ ∀ l g, heap s' !! l = Some (NdScore g) →
                heap init !! l = Some (NdScore g))
  ∧ (∀ res,
       matchTemplate (cvtColor_BGR2GRAY Fixture.photo) Oversize.wide
         TM_CCOEFF_NORMED = Some res →
       ∃ v s' l,
         script default_config init = (Ok v, s')
         ∧ e_res (v_env v) = Some l
         ∧ heap s' !! l = Some (NdScore res)).
Proof.
  split; [reflexivity|]. split; [reflexivity|].
  apply (dimensions_left_to_opencv default_config init Fixture.photo
           Oversize.wide); reflexivity.
Defined.

End OversizeExamples.

Section FlatExamples.
#[local] Existing Instance Flat.cv2.

Lemma nan_score_never_detected_witness :
  reads default_config Fixture.photo Fixture.patch Flat.scores
  ∧ entry_at Flat.scores 0 0 = Some S754_nan
  ∧ ∃ v s',
      script default_config init = (Ok v, s')
      ∧ ∀ x y,
          entry_at Flat.scores x y = Some S754_nan →
          [x; y] ∉ v_detections v.
Proof.
  split; [by repeat split|]. split; [reflexivity|].
  apply (nan_score_never_detected default_config init Fixture.photo
           Fixture.patch Flat.scores).
  by repeat split.
Defined.

End FlatExamples.

(** * The template that is wider than the photo *)

Section SwappingExamples.
#[local] Existing Instance Swapping.cv2.

Lemma reads_swapping :
  reads default_config Swapping.photo Swapping.wide Swapping.scores.
Proof. by repeat split. Qed.

(** C2, as stated, fails: the template has two columns and the photo one,
    the matcher exchanges them, and the run reports the coordinates (0, 0)
    and (1, 0) although W_img - w is -1. *)
Lemma detections_within_bounds_counterexample :
  ∃ v s',
    script default_config init = (Ok v, s')
    ∧ v_detections v = [[0; 0]; [1; 0]]
    ∧ width (cvtColor_BGR2GRAY Swapping.photo) - width Swapping.wide = -1
    ∧ ¬ (∀ x y,
           [x; y] ∈ v_detections v →
           0 ≤ x ≤ width (cvtColor_BGR2GRAY Swapping.photo)
                   - width Swapping.wide
           ∧ 0 ≤ y ≤ height (cvtColor_BGR2GRAY Swapping.photo)
                     - height Swapping.wide).
Proof.
  destruct reads_swapping as (Himg & Htpl & Hres).
  eexists _, _. split; [by apply script_run|].
  split; [reflexivity|]. split; [reflexivity|].
  intros Hall. destruct (Hall 0 0) as [Hx _]; [|simpl in Hx; lia].
  simpl. apply list_elem_of_here.
Qed.

(** C5, as stated, fails: with the same template, wider than the photo,
    the run does not raise; it ends well, with a score map in the store. *)
Lemma dimensions_left_to_opencv_counterexample :
  width (cvtColor_BGR2GRAY Swapping.photo) < width Swapping.wide
  ∧ ∃ v s' l,
      script default_config init = (Ok v, s')
      ∧ e_res (v_env v) = Some l
      ∧ heap s' !! l = Some (NdScore Swapping.scores).
Proof.
  destruct reads_swapping as (Himg & Htpl & Hres).
  split; [reflexivity|].
  eexists _, _, (l_res (heap init) Swapping.photo Swapping.wide).
  split; [by apply script_run|].
  split; [reflexivity|].
  exact (final_heap_res default_config init Swapping.photo Swapping.wide
           Swapping.scores).
Qed.

End SwappingExamples.
